(** * StudentRoutineApp: the schedule derivation and the persisted preferences

    A shallow embedding of the [App] component: the two memoised
    derivations ([filteredSchedule], [groupedByDay]), the part of
    [renderSchedule] that decides which day sections are produced, and the
    handlers that talk to the secure store ([loadSavedData], [saveGroup],
    [toggleTheme], [changeGroup]).

    JavaScript strings are modelled as [string]; the object literal used as
    a dictionary in [groupedByDay] and the key-value store are [gmap]s. *)

From stdpp Require Import gmap strings list fin_maps sorting.
From Stdlib Require Import ZArith OrdersEx.

Local Open Scope string_scope.
Local Open Scope list_scope.

(** ** Data model *)

(** [ClassSchedule] of types.d.ts; every field is a string. *)
Record ClassSchedule : Type := mkClass {
  Day : string;
  Time : string;
  ClassType : string;
  ModuleCode : string;
  ModuleTitle : string;
  Lecturer : string;
  Group : string;
  Room : string
}.

#[global] Instance ClassSchedule_eq_dec : EqDecision ClassSchedule.
Proof. solve_decision. Defined.

Definition GROUPS : list string := ["L4CG1"; "L4CG2"; "L4CG3"; "L4CG4"].
Definition DAYS : list string := ["SUN"; "MON"; "TUE"; "WED"; "THU"; "FRI"].

Definition GROUP_STORAGE_KEY : string := "selected_group".
Definition THEME_STORAGE_KEY : string := "app_theme".

(** ** String primitives used by the component *)

Module Js.

(** [s.startsWith(p)]. *)
Fixpoint startsWith (s p : string) {struct p} : bool :=
  match p, s with
  | EmptyString, _ => true
  | String a p', String b s' => if decide (a = b) then startsWith s' p' else false
  | String _ _, EmptyString => false
  end.

(** [s.includes(search)]: [search] occurs in [s] at some position. *)
Fixpoint includes (s search : string) : bool :=
  startsWith s search ||
  match s with
  | EmptyString => false
  | String _ s' => includes s' search
  end.

(** [s.split(sep)[0]] for a non-empty separator: the part of [s] before
    the first occurrence of [sep], all of [s] when there is none. *)
Fixpoint splitHead (s sep : string) : string :=
  if startsWith s sep then EmptyString
  else match s with
       | EmptyString => EmptyString
       | String c s' => String c (splitHead s' sep)
       end.

(** Truthiness of a value of type [string | null]. *)
Definition truthy (v : option string) : bool :=
  match v with
  | Some s => negb (bool_decide (s = EmptyString))
  | None => false
  end.

(** [arr.includes(x)] on an array of strings. *)
Definition arrayIncludes (arr : list string) (x : string) : bool :=
  bool_decide (x ∈ arr).

(** [arr.sort(compareFn)]. ECMAScript leaves the algorithm to the engine
    and requires the result to be stable; the model is a stable insertion
    sort: an element moves past [y] only when [compareFn x y > 0]. *)
Fixpoint sortInsert {A} (compareFn : A → A → Z) (x : A) (l : list A) : list A :=
  match l with
  | [] => [x]
  | y :: l' =>
      if (0 <? compareFn x y)%Z then y :: sortInsert compareFn x l'
      else x :: y :: l'
  end.

Definition sort {A} (compareFn : A → A → Z) (l : list A) : list A :=
  foldr (sortInsert compareFn) [] l.

(** Property names that every object literal inherits from
    [Object.prototype]: reading them on [{}] gives a function (or the
    prototype itself), never [undefined]. *)
Definition objectPrototypeKeys : list string :=
  ["constructor"; "__proto__"; "hasOwnProperty"; "isPrototypeOf";
   "propertyIsEnumerable"; "toLocaleString"; "toString"; "valueOf";
   "__defineGetter__"; "__defineSetter__"; "__lookupGetter__";
   "__lookupSetter__"].

End Js.

(** [g] occurs in [s] as a contiguous substring. *)
Definition substring_of (g s : string) : Prop :=
  ∃ pre post : string, s = pre +:+ g +:+ post.

(** [selects P l r]: [r] is [l] with exactly the elements that fail [P]
    removed, the kept ones in their original order and multiplicity. *)
Inductive selects {A : Type} (P : A → Prop) : list A → list A → Prop :=
  | selects_nil : selects P [] []
  | selects_keep x l r : P x → selects P l r → selects P (x :: l) (x :: r)
  | selects_drop x l r : ¬ P x → selects P l r → selects P (x :: l) r.

(** ** Derivation engine *)

(** The [useMemo] body computing [filteredSchedule]; [schedule] stands for
    the bundled [classScheduleData]. *)
Definition filteredSchedule (selectedGroup : option string) (selectedDay : string)
    (schedule : list ClassSchedule) : list ClassSchedule :=
  match selectedGroup with
  | Some g =>
      if negb (Js.truthy selectedGroup) then []
      else
        let filtered := filter (λ item, Js.includes (Group item) g) schedule in
        if negb (bool_decide (selectedDay = "ALL"))
        then filter (λ item, Day item = selectedDay) filtered
        else filtered
  | None => []
  end.


(** A comparator that orders its arguments consistently: the two
    directions agree and "not after" is transitive. ECMAScript requires
    [localeCompare] to be one, and promises a sorted, stable result of
    [sort] only for such comparators. *)
Class Consistent {A} (compareFn : A → A → Z) : Prop := {
  compare_flip : ∀ a b, (0 < compareFn a b ↔ compareFn b a < 0)%Z;
  compare_trans : ∀ a b c,
    (compareFn a b ≤ 0 → compareFn b c ≤ 0 → compareFn a c ≤ 0)%Z
}.

(** [a] may stand before [b] in an array sorted with [compareFn]. *)
Definition notAfter {A} (compareFn : A → A → Z) (a b : A) : Prop :=
  (compareFn a b ≤ 0)%Z.

(** The key the comparator of [groupedByDay] extracts:
    [a.Time.split(' - ')[0]]. *)
Definition startTime (a : ClassSchedule) : string := Js.splitHead (Time a) " - ".

Section Grouping.

(** [String.prototype.localeCompare]: the collation is the host's, so it
    is a parameter of the model. *)
Variable localeCompare : string → string → Z.

(** The comparator handed to [sort]. *)
Definition compareFn (a b : ClassSchedule) : Z :=
  let timeA := startTime a in
  let timeB := startTime b in
  localeCompare timeA timeB.

(** One round of the first [forEach]. [grouped] holds the own properties
    of the object literal. [None] is the [TypeError] of calling [push]
    on an inherited member: for such a key [!grouped[item.Day]] is false,
    no array is created, and the inherited value has no [push]. *)
Definition groupItem (grouped : gmap string (list ClassSchedule)) (item : ClassSchedule)
    : option (gmap string (list ClassSchedule)) :=
  match grouped !! Day item with
  | Some arr => Some (<[Day item := arr ++ [item]]> grouped)
  | None =>
      if Js.arrayIncludes Js.objectPrototypeKeys (Day item) then None
      else Some (<[Day item := [] ++ [item]]> grouped)
  end.

Fixpoint groupItems (items : list ClassSchedule)
    (grouped : gmap string (list ClassSchedule))
    : option (gmap string (list ClassSchedule)) :=
  match items with
  | [] => Some grouped
  | item :: rest =>
      match groupItem grouped item with
      | Some grouped' => groupItems rest grouped'
      | None => None
      end
  end.

(** The [useMemo] body computing [groupedByDay]: group in sequence order,
    then sort the array under every key in place. *)
Definition groupedByDay (filteredSchedule : list ClassSchedule)
    : option (gmap string (list ClassSchedule)) :=
  match groupItems filteredSchedule ∅ with
  | Some grouped => Some (Js.sort compareFn <$> grouped)
  | None => None
  end.

End Grouping.

(** A dataset none of whose [Day] fields names a member of
    [Object.prototype]; every dataset over the seven day abbreviations is
    one. *)
Definition plainDays (schedule : list ClassSchedule) : Prop :=
  Forall (λ item, Day item ∉ Js.objectPrototypeKeys) schedule.

(** All sessions of every bucket, bucket after bucket. *)
Definition allBuckets (grouped : gmap string (list ClassSchedule)) : list ClassSchedule :=
  concat ((map_to_list grouped).*2).

(** ** The schedule view *)

Definition DAY_NAMES : gmap string string :=
  list_to_map
    [("SUN", "Sunday"); ("MON", "Monday"); ("TUE", "Tuesday"); ("WED", "Wednesday");
     ("THU", "Thursday"); ("FRI", "Friday"); ("SAT", "Saturday")].

Inductive SectionBody : Type :=
  | ClassItems (classes : list ClassSchedule)
  | NoClassesText.

(** A [daySection] view: its React key (only the sections of the ALL view
    have one), the title text and what follows it. *)
Record DaySection : Type := mkSection {
  sectionKey : option string;
  dayTitle : option string;
  sectionBody : SectionBody
}.

(** The callback of [DAYS.map] in the ALL view; [None] is the [null]
    returned for a day without classes. *)
Definition renderDaySection (groupedByDay : gmap string (list ClassSchedule))
    (day : string) : option DaySection :=
  match groupedByDay !! day with
  | Some dayClasses =>
      if (length dayClasses =? 0)%nat then None
      else Some (mkSection (Some day) (DAY_NAMES !! day) (ClassItems dayClasses))
  | None => None
  end.

(** The children of the [ScrollView] in [renderSchedule]. [selectedDay] is
    ALL or a day abbreviation, so the own properties of [groupedByDay] are
    all a lookup can find. *)
Definition renderSchedule (selectedDay : string)
    (groupedByDay : gmap string (list ClassSchedule)) : list (option DaySection) :=
  if bool_decide (selectedDay = "ALL") then
    renderDaySection groupedByDay <$> DAYS
  else
    [Some (mkSection None (DAY_NAMES !! selectedDay)
             match groupedByDay !! selectedDay with
             | Some dayClasses =>
                 if (0 <? length dayClasses)%nat then ClassItems dayClasses
                 else NoClassesText
             | None => NoClassesText
             end)].

(** The sections that reach the screen, top to bottom. *)
Definition shownSections (children : list (option DaySection)) : list DaySection :=
  omap id children.

Definition sectionClasses (sec : DaySection) : list ClassSchedule :=
  match sectionBody sec with
  | ClassItems classes => classes
  | NoClassesText => []
  end.

(** ** View state and the secure store *)

(** The four [useState] cells of [App]. *)
Record AppState : Type := mkState {
  selectedGroup : option string;
  selectedDay : string;
  isLoading : bool;
  isDarkMode : bool
}.

(** Everything a handler can touch: the component state, the items held
    by [SecureStore], the lines sent to [console.log] and the alerts
    raised (title and message), oldest first. *)
Record World : Type := mkWorld {
  ui : AppState;
  storeItems : gmap string string;
  consoleLines : list string;
  alertsRaised : list (string * string)
}.

(** How a [SecureStore] promise settles. A rejected call leaves the
    stored items as they were. *)
Inductive Settled : Type := Fulfilled | Rejected.

Inductive Completion (A : Type) : Type :=
  | Normal (a : A)
  | Throw.
Arguments Normal {A} a.
Arguments Throw {A}.

(** An [async] body: runs on a world, completes normally or throws. *)
Definition Async (A : Type) : Type := World → Completion A * World.

#[global] Instance Async_ret : MRet Async := λ A a w, (Normal a, w).
#[global] Instance Async_bind : MBind Async := λ A B f m w,
  match m w with
  | (Normal a, w') => f a w'
  | (Throw, w') => (Throw, w')
  end.

Definition exec {A} (m : Async A) (w : World) : World := (m w).2.

Definition tryCatch {A} (body handler : Async A) : Async A := λ w,
  match body w with
  | (Normal a, w') => (Normal a, w')
  | (Throw, w') => handler w'
  end.

Definition tryCatchFinally {A} (body handler : Async A) (finalizer : Async unit)
    : Async A := λ w,
  let '(r, w') := tryCatch body handler w in
  match finalizer w' with
  | (Normal _, w'') => (r, w'')
  | (Throw, w'') => (Throw, w'')
  end.

(** [Promise.all] of two calls: both are issued, and the result rejects
    when either does. *)
Definition promiseAll2 {A B} (a : Async A) (b : Async B) : Async (A * B) := λ w,
  let '(ra, w1) := a w in
  let '(rb, w2) := b w1 in
  match ra, rb with
  | Normal x, Normal y => (Normal (x, y), w2)
  | _, _ => (Throw, w2)
  end.

Module SecureStore.

Definition getItemAsync (r : Settled) (key : string) : Async (option string) := λ w,
  match r with
  | Fulfilled => (Normal (storeItems w !! key), w)
  | Rejected => (Throw, w)
  end.

Definition setItemAsync (r : Settled) (key value : string) : Async unit := λ w,
  match r with
  | Fulfilled =>
      (Normal (), mkWorld (ui w) (<[key := value]> (storeItems w))
                    (consoleLines w) (alertsRaised w))
  | Rejected => (Throw, w)
  end.

Definition deleteItemAsync (r : Settled) (key : string) : Async unit := λ w,
  match r with
  | Fulfilled =>
      (Normal (), mkWorld (ui w) (delete key (storeItems w))
                    (consoleLines w) (alertsRaised w))
  | Rejected => (Throw, w)
  end.

End SecureStore.

Definition setState (f : AppState → AppState) : Async unit := λ w,
  (Normal (), mkWorld (f (ui w)) (storeItems w) (consoleLines w) (alertsRaised w)).

Definition setSelectedGroup (v : option string) : Async unit :=
  setState (λ s, mkState v (selectedDay s) (isLoading s) (isDarkMode s)).
Definition setSelectedDay (v : string) : Async unit :=
  setState (λ s, mkState (selectedGroup s) v (isLoading s) (isDarkMode s)).
Definition setIsLoading (v : bool) : Async unit :=
  setState (λ s, mkState (selectedGroup s) (selectedDay s) v (isDarkMode s)).
Definition setIsDarkMode (v : bool) : Async unit :=
  setState (λ s, mkState (selectedGroup s) (selectedDay s) (isLoading s) v).

Definition consoleLog (msg : string) : Async unit := λ w,
  (Normal (), mkWorld (ui w) (storeItems w) (consoleLines w ++ [msg]) (alertsRaised w)).

Definition alert (title message : string) : Async unit := λ w,
  (Normal (), mkWorld (ui w) (storeItems w) (consoleLines w)
                (alertsRaised w ++ [(title, message)])).

(** The value a handler's closure holds for a state cell: the state of
    the render that created the handler. *)
Definition readState {A} (field : AppState → A) : Async A := λ w, (Normal (field (ui w)), w).

(** ** Initial state *)

Definition dayMap : list string := ["SUN"; "MON"; "TUE"; "WED"; "THU"; "FRI"; "SAT"].

(** The initialiser of the [selectedDay] cell; [dayIndex] is
    [new Date().getDay()]. *)
Definition initialSelectedDay (dayIndex : nat) : string :=
  match dayMap !! dayIndex with
  | Some currentDay => if Js.arrayIncludes DAYS currentDay then currentDay else "ALL"
  | None => "ALL"
  end.

Definition initialState (dayIndex : nat) : AppState :=
  mkState None (initialSelectedDay dayIndex) true false.

(** The world at mount: fresh component state over the stored items. *)
Definition mount (dayIndex : nat) (items : gmap string string) : World :=
  mkWorld (initialState dayIndex) items [] [].

(** An app restart: the component state is fresh, the store is kept. *)
Definition restart (dayIndex : nat) (w : World) : World :=
  mount dayIndex (storeItems w).

(** ** Handlers *)

Definition loadSavedData (rGroup rTheme : Settled) : Async unit :=
  tryCatchFinally
    ('(savedGroup, savedTheme) ←
        promiseAll2 (SecureStore.getItemAsync rGroup GROUP_STORAGE_KEY)
                    (SecureStore.getItemAsync rTheme THEME_STORAGE_KEY);
     match savedGroup with
     | Some g =>
         if Js.truthy savedGroup && Js.arrayIncludes GROUPS g
         then setSelectedGroup savedGroup else mret ()
     | None => mret ()
     end;;
     if bool_decide (savedTheme = Some "dark") then setIsDarkMode true else mret ())
    (consoleLog "Error loading saved data:")
    (setIsLoading false).

Definition saveGroup (r : Settled) (group : string) : Async unit :=
  tryCatch
    (SecureStore.setItemAsync r GROUP_STORAGE_KEY group;;
     setSelectedGroup (Some group))
    (consoleLog "Error saving group:";;
     alert "Error" "Failed to save group selection").

Definition toggleTheme (r : Settled) : Async unit :=
  tryCatch
    (isDarkMode ← readState isDarkMode;
     let newTheme := negb isDarkMode in
     setIsDarkMode newTheme;;
     SecureStore.setItemAsync r THEME_STORAGE_KEY (if newTheme then "dark" else "light"))
    (consoleLog "Error saving theme:").

(** The two buttons of the confirmation alert. *)
Inductive AlertButton : Type := Cancel | Yes.

Definition changeGroup (pressed : AlertButton) (r : Settled) : Async unit :=
  alert "Change Group" "Are you sure you want to change your group?";;
  match pressed with
  | Cancel => mret ()
  | Yes =>
      tryCatch
        (SecureStore.deleteItemAsync r GROUP_STORAGE_KEY;;
         setSelectedGroup None)
        (consoleLog "Error clearing group:")
  end.

(** What [initialize] accepts from the store as the group. *)
Definition acceptedGroup (stored : option string) : option string :=
  match stored with
  | Some g => if bool_decide (g ∈ GROUPS) then Some g else None
  | None => None
  end.

(** ** The component as a transition system *)

(** What can happen to a mounted component: the mount effect, and a press
    on one of the controls. *)
Inductive Event : Type :=
  | Mounted (rGroup rTheme : Settled)
  | PressGroup (group : string) (r : Settled)
  | PressTheme (r : Settled)
  | PressChange (pressed : AlertButton) (r : Settled)
  | PressAll
  | PressDay (day : string).

(** The controls on screen: none while loading, the group buttons (one per
    element of [GROUPS]) without a group, the header buttons and the day
    picker (ALL and one button per element of [DAYS]) with one. *)
Definition offered (s : AppState) (ev : Event) : bool :=
  match ev with
  | Mounted _ _ => isLoading s
  | PressGroup group _ =>
      negb (isLoading s) && negb (Js.truthy (selectedGroup s))
      && Js.arrayIncludes GROUPS group
  | PressTheme _ | PressChange _ _ | PressAll =>
      negb (isLoading s) && Js.truthy (selectedGroup s)
  | PressDay day =>
      negb (isLoading s) && Js.truthy (selectedGroup s) && Js.arrayIncludes DAYS day
  end.

Definition handle (ev : Event) : Async unit :=
  match ev with
  | Mounted rGroup rTheme => loadSavedData rGroup rTheme
  | PressGroup group r => saveGroup r group
  | PressTheme r => toggleTheme r
  | PressChange pressed r => changeGroup pressed r
  | PressAll => setSelectedDay "ALL"
  | PressDay day => setSelectedDay day
  end.

(** A handler runs to its end before the next event is taken. *)
Inductive step (w : World) (ev : Event) : World → Prop :=
  | step_handle : offered (ui w) ev = true → step w ev (exec (handle ev) w).

Inductive reachable : World → Prop :=
  | reachable_mount dayIndex items : reachable (mount dayIndex items)
  | reachable_step w ev w' : reachable w → step w ev w' → reachable w'.

(** ** The screens *)

(** A button of the day picker: its text, whether it is drawn selected,
    and what a press on it does. *)
Record DayButton : Type := mkDayButton {
  dayLabel : string;
  daySelected : bool;
  dayPress : Event
}.

(** [renderDayPicker]: the ALL button, then one button per element of
    [DAYS]. *)
Definition renderDayPicker (selectedDay : string) : list DayButton :=
  mkDayButton "ALL" (bool_decide (selectedDay = "ALL")) PressAll
  :: ((λ day, mkDayButton day (bool_decide (selectedDay = day)) (PressDay day))
        <$> DAYS).

(** [renderGroupSelection]: the texts of the group buttons; a press on the
    one reading [group] calls [saveGroup(group)]. *)
Definition renderGroupSelection : list string := (λ group, group) <$> GROUPS.

(** What [App] returns, styling left out: the loading view, the group
    selection, or the schedule with its header text, day picker and the
    children of the scroll view. *)
Inductive Screen : Type :=
  | LoadingView
  | GroupSelectionView (groupButtons : list string)
  | ScheduleView (groupText : option string) (dayPicker : list DayButton)
      (scrollView : list (option DaySection)).

(** One render of [App] over the bundled [schedule]. Both memoised values
    are computed before the loading test, so a grouping that throws makes
    the render throw ([None]) on every screen. *)
Definition App (localeCompare : string → string → Z) (schedule : list ClassSchedule)
    (s : AppState) : option Screen :=
  let filteredSchedule := filteredSchedule (selectedGroup s) (selectedDay s) schedule in
  match groupedByDay localeCompare filteredSchedule with
  | None => None
  | Some groupedByDay =>
      if isLoading s then Some LoadingView
      else if Js.truthy (selectedGroup s)
      then Some (ScheduleView (selectedGroup s) (renderDayPicker (selectedDay s))
                   (renderSchedule (selectedDay s) groupedByDay))
      else Some (GroupSelectionView renderGroupSelection)
  end.

(** The presses a screen takes: those of the buttons it draws. *)
Definition pressable (screen : Screen) (ev : Event) : Prop :=
  match screen, ev with
  | GroupSelectionView groupButtons, PressGroup group _ => group ∈ groupButtons
  | ScheduleView _ dayPicker _, PressAll
  | ScheduleView _ dayPicker _, PressDay _ => ∃ b, b ∈ dayPicker ∧ dayPress b = ev
  | ScheduleView _ _ _, PressTheme _
  | ScheduleView _ _ _, PressChange _ _ => True
  | _, _ => False
  end.

(** The in-memory group is the one a restart would restore from the
    store. *)
Definition groupInSync (w : World) : Prop :=
  selectedGroup (ui w) = acceptedGroup (storeItems w !! GROUP_STORAGE_KEY).

(** The in-memory theme is the one a restart would restore from the
    store. *)
Definition themeInSync (w : World) : Prop :=
  isDarkMode (ui w) = bool_decide (storeItems w !! THEME_STORAGE_KEY = Some "dark").

(** ** Sample data *)

(** Collation by code units, a comparator to run the model with. *)
Definition codeUnitCompare (a b : string) : Z :=
  match String_as_OT.compare a b with
  | Lt => (-1)%Z
  | Eq => 0%Z
  | Gt => 1%Z
  end.

Definition sampleSchedule : list ClassSchedule :=
  [ mkClass "MON" "10:00 - 11:00" "Lecture" "4CS001" "Programming" "A. Rai" "L4CG1,L4CG2" "LT-01";
    mkClass "MON" "09:00 - 10:00" "Tutorial" "4CS015" "Mathematics" "B. Shah" "L4CG1" "TR-02";
    mkClass "SAT" "08:00 - 09:00" "Workshop" "4CS001" "Programming" "A. Rai" "L4CG1" "LAB-03";
    mkClass "MON" "09:00 - 09:30" "Workshop" "4CS016" "Computing" "C. Lama" "L4CG1" "LAB-01";
    mkClass "SUN" "11:00 - 12:00" "Lecture" "4CS015" "Mathematics" "B. Shah" "L4CG3" "LT-02" ].

Definition sampleWorld : World :=
  mkWorld (mkState (Some "L4CG1") "MON" false false)
          {[ GROUP_STORAGE_KEY := "L4CG1" ]} [] [].

(** ** Substring search *)

Lemma startsWith_spec s p : Js.startsWith s p = true ↔ ∃ post, s = p +:+ post.
Proof.
  revert s. induction p as [|a p IH]; intros s; simpl.
  - split; [intros _; exists s; reflexivity | reflexivity].
  - destruct s as [|b s].
    + split; [done | intros [post H]; discriminate].
    + case_decide as Hab.
      * subst b. rewrite IH. split; intros [post H]; exists post.
        -- by rewrite H.
        -- by injection H.
      * split; [done | intros [post H]; injection H; congruence].
Qed.

Lemma includes_spec s g : Js.includes s g = true ↔ substring_of g s.
Proof.
  induction s as [|c s IH]; simpl.
  - rewrite orb_false_r, startsWith_spec. split.
    + intros [post H]. by exists EmptyString, post.
    + intros ([|? pre] & post & H); simpl in H; [by exists post | discriminate].
  - rewrite orb_true_iff, startsWith_spec, IH. split.
    + intros [[post H] | (pre & post & H)].
      * by exists EmptyString, post.
      * exists (String c pre), post. simpl. by rewrite H.
    + intros ([|c' pre] & post & H); simpl in H.
      * left. by exists post.
      * right. injection H as _ H. by exists pre, post.
Qed.

Lemma filter_selects {A} (P Q : A → Prop) `{!∀ x, Decision (P x)} (l : list A) :
  (∀ x, P x ↔ Q x) → selects Q l (filter P l).
Proof.
  intros HPQ. induction l as [|x l IH]; [constructor|].
  rewrite filter_cons. destruct (decide (P x)) as [Hx|Hx].
  - apply selects_keep; [by apply HPQ | done].
  - apply selects_drop; [by rewrite <- HPQ | done].
Qed.

Lemma selects_sublist {A} (P : A → Prop) l r : selects P l r → sublist r l.
Proof. induction 1; by constructor. Qed.

Lemma selects_elem_of {A} (P : A → Prop) l r x :
  selects P l r → (x ∈ r ↔ x ∈ l ∧ P x).
Proof.
  induction 1 as [|y l r Hy _ IH|y l r Hy _ IH].
  - rewrite elem_of_nil. tauto.
  - rewrite !elem_of_cons, IH. intuition congruence.
  - rewrite elem_of_cons, IH. intuition congruence.
Qed.

Lemma GROUPS_truthy g : g ∈ GROUPS → Js.truthy (Some g) = true.
Proof.
  intros Hg. unfold Js.truthy. apply negb_true_iff, bool_decide_eq_false.
  intros ->. unfold GROUPS in Hg.
  repeat (apply elem_of_cons in Hg as [Hg|Hg]; [discriminate|]).
  by apply elem_of_nil in Hg.
Qed.

(** C1. For a valid group [g] and any dataset, the schedule filtered by
    group (no day restriction) keeps exactly the sessions whose [Group]
    field contains [g] as a substring, in the dataset's order. *)
Theorem filteredSchedule_group_exact (g : string) (D : list ClassSchedule) :
  g ∈ GROUPS →
  selects (λ item, substring_of g (Group item)) D (filteredSchedule (Some g) "ALL" D)
  ∧ (∀ x, x ∈ filteredSchedule (Some g) "ALL" D ↔ x ∈ D ∧ substring_of g (Group x))
  ∧ sublist (filteredSchedule (Some g) "ALL" D) D.
Proof.
  intros Hg.
  assert (Hsel : selects (λ item, substring_of g (Group item)) D
                   (filteredSchedule (Some g) "ALL" D)).
  { unfold filteredSchedule. rewrite (GROUPS_truthy g Hg). simpl.
    apply filter_selects. intros x. rewrite Is_true_true. apply includes_spec. }
  split; [done|]. split.
  - intros x. exact (selects_elem_of _ _ _ x Hsel).
  - exact (selects_sublist _ _ _ Hsel).
Qed.

(** The group filter on the sample dataset, for L4CG1. *)
Lemma filteredSchedule_group_exact_witness :
  "L4CG1" ∈ GROUPS ∧
  selects (λ item, substring_of "L4CG1" (Group item)) sampleSchedule
    (filteredSchedule (Some "L4CG1") "ALL" sampleSchedule)
  ∧ (∀ x, x ∈ filteredSchedule (Some "L4CG1") "ALL" sampleSchedule
          ↔ x ∈ sampleSchedule ∧ substring_of "L4CG1" (Group x))
  ∧ sublist (filteredSchedule (Some "L4CG1") "ALL" sampleSchedule) sampleSchedule.
Proof.
  assert (H : "L4CG1" ∈ GROUPS) by (apply (bool_decide_unpack _); by vm_compute).
  exact (conj H (filteredSchedule_group_exact "L4CG1" sampleSchedule H)).
Defined.

(** ** The model of [sort] *)

Section Sort.
Context {A : Type} (c : A → A → Z).

Lemma sortInsert_perm x l : Js.sortInsert c x l ≡ₚ x :: l.
Proof.
  induction l as [|y l IH]; simpl; [done|].
  destruct (0 <? c x y)%Z; [|done].
  rewrite IH. apply Permutation_swap.
Qed.

Lemma sort_perm l : Js.sort c l ≡ₚ l.
Proof.
  induction l as [|x l IH]; simpl; [done|].
  fold (Js.sort c l). by rewrite sortInsert_perm, IH.
Qed.

Lemma sort_nil_inv l : Js.sort c l = [] → l = [].
Proof. intros H. apply Permutation_nil_r. rewrite <- H. symmetry. apply sort_perm. Qed.

(** Elements that the comparator never places after one another keep
    their order through an insertion. *)
Lemma sortInsert_filter (P : A → Prop) `{!∀ x, Decision (P x)} x l :
  (∀ y, P x → P y → ¬ (0 < c x y)%Z) →
  filter P (Js.sortInsert c x l) = filter P (x :: l).
Proof.
  intros HP. induction l as [|y l IH]; simpl; [done|].
  destruct (0 <? c x y)%Z eqn:E; [|done].
  apply Z.ltb_lt in E.
  rewrite filter_cons, IH, !filter_cons.
  destruct (decide (P y)) as [Hy|Hy]; [|done].
  destruct (decide (P x)) as [Hx|Hx]; [|done].
  by destruct (HP y Hx Hy).
Qed.

Lemma sort_filter (P : A → Prop) `{!∀ x, Decision (P x)} l :
  (∀ x y, P x → P y → c x y = 0%Z) →
  filter P (Js.sort c l) = filter P l.
Proof.
  intros HP. induction l as [|x l IH]; simpl; [done|].
  fold (Js.sort c l). rewrite sortInsert_filter.
  - by rewrite !filter_cons, IH.
  - intros y Hx Hy. rewrite (HP x y Hx Hy). lia.
Qed.

Context `{!Consistent c}.

Lemma compare_refl a : c a a = 0%Z.
Proof. pose proof (compare_flip a a). lia. Qed.

Lemma compare_zero_sym a b : c a b = 0%Z → c b a = 0%Z.
Proof. pose proof (compare_flip a b). pose proof (compare_flip b a). lia. Qed.

Lemma compare_zero_class a b k : c a k = 0%Z → c b k = 0%Z → c a b = 0%Z.
Proof.
  intros Ha Hb.
  pose proof (compare_zero_sym _ _ Ha) as Ha'.
  pose proof (compare_zero_sym _ _ Hb) as Hb'.
  pose proof (compare_trans a k b). pose proof (compare_trans b k a).
  pose proof (compare_flip b a). lia.
Qed.

Lemma sortInsert_sorted x l :
  StronglySorted (notAfter c) l → StronglySorted (notAfter c) (Js.sortInsert c x l).
Proof.
  induction 1 as [|y l Hl IH Hy]; simpl.
  - repeat constructor.
  - destruct (0 <? c x y)%Z eqn:E.
    + apply Z.ltb_lt in E. constructor; [done|].
      rewrite sortInsert_perm. constructor; [|done].
      unfold notAfter. pose proof (compare_flip x y). lia.
    + apply Z.ltb_ge in E. constructor.
      * by constructor.
      * constructor; [done|].
        eapply Forall_impl; [exact Hy|].
        intros z Hz. unfold notAfter in *. by eapply compare_trans.
Qed.


Lemma sort_sorted l : StronglySorted (notAfter c) (Js.sort c l).
Proof.
  induction l as [|x l IH]; simpl; [constructor|].
  by apply sortInsert_sorted.
Qed.

End Sort.

(** ** Grouping by day *)

Lemma groupItems_lookup items :
  plainDays items → ∀ grouped, ∃ grouped',
    groupItems items grouped = Some grouped' ∧
    ∀ d, grouped' !! d =
         match grouped !! d with
         | Some arr => Some (arr ++ filter (λ item, Day item = d) items)
         | None =>
             if decide (filter (λ item, Day item = d) items = []) then None
             else Some (filter (λ item, Day item = d) items)
         end.
Proof.
  induction 1 as [|item items Hitem _ IH]; intros grouped.
  - exists grouped. split; [done|]. intros d. simpl.
    destruct (grouped !! d); [by rewrite app_nil_r | done].
  - simpl. unfold groupItem.
    assert (∃ arr', (match grouped !! Day item with
                     | Some arr => Some (<[Day item := arr ++ [item]]> grouped)
                     | None =>
                         if Js.arrayIncludes Js.objectPrototypeKeys (Day item) then None
                         else Some (<[Day item := [] ++ [item]]> grouped)
                     end) = Some (<[Day item := arr' ++ [item]]> grouped)
                    ∧ arr' = default [] (grouped !! Day item)) as (arr' & -> & Harr').
    { destruct (grouped !! Day item) as [arr|]; [by exists arr|].
      exists []. unfold Js.arrayIncludes. by rewrite bool_decide_eq_false_2. }
    destruct (IH (<[Day item := arr' ++ [item]]> grouped)) as (grouped' & -> & Hlook).
    exists grouped'. split; [done|]. intros d. rewrite Hlook, filter_cons.
    destruct (decide (Day item = d)) as [<-|Hne].
    + rewrite lookup_insert_eq, <- app_assoc. simpl.
      destruct (grouped !! Day item) as [arr|]; simpl in Harr'; subst arr'; done.
    + by rewrite lookup_insert_ne.
Qed.

Lemma allBuckets_insert grouped d arr item :
  arr = default [] (grouped !! d) →
  allBuckets (<[d := arr ++ [item]]> grouped) ≡ₚ allBuckets grouped ++ [item].
Proof.
  intros ->. unfold allBuckets. destruct (grouped !! d) as [arr|] eqn:E; simpl.
  - rewrite <- insert_delete_eq.
    rewrite map_to_list_insert by apply lookup_delete_eq.
    rewrite <- (map_to_list_delete grouped d arr E). simpl.
    rewrite <- !app_assoc. apply Permutation_app_head, Permutation_app_comm.
  - rewrite map_to_list_insert by done. simpl.
    apply Permutation_cons_append.
Qed.

Lemma groupItems_allBuckets items : ∀ grouped grouped',
  groupItems items grouped = Some grouped' →
  allBuckets grouped' ≡ₚ allBuckets grouped ++ items.
Proof.
  induction items as [|item items IH]; intros grouped grouped' H; simpl in H.
  - injection H as <-. by rewrite app_nil_r.
  - destruct (groupItem grouped item) as [g1|] eqn:E; [|done].
    rewrite (IH _ _ H). unfold groupItem in E.
    assert (allBuckets g1 ≡ₚ allBuckets grouped ++ [item]) as ->.
    { destruct (grouped !! Day item) as [arr|] eqn:El.
      - injection E as <-. apply allBuckets_insert. by rewrite El.
      - destruct (Js.arrayIncludes _ _); [done|]. injection E as <-.
        apply (allBuckets_insert grouped (Day item) []). by rewrite El. }
    by rewrite <- app_assoc.
Qed.

Lemma allBuckets_fmap_perm (f : list ClassSchedule → list ClassSchedule) grouped :
  (∀ l, f l ≡ₚ l) → allBuckets (f <$> grouped) ≡ₚ allBuckets grouped.
Proof.
  intros Hf. unfold allBuckets. rewrite map_to_list_fmap.
  induction (map_to_list grouped) as [|[k l] rest IH]; simpl; [done|].
  by rewrite Hf, IH.
Qed.

Section GroupedByDay.
Variable localeCompare : string → string → Z.

(** What [groupedByDay] holds under each key: nothing for a day without
    sessions, else the day's sessions, sorted. *)
Lemma groupedByDay_lookup items :
  plainDays items → ∃ grouped,
    groupedByDay localeCompare items = Some grouped ∧
    ∀ d, grouped !! d =
         if decide (filter (λ item, Day item = d) items = []) then None
         else Some (Js.sort (compareFn localeCompare)
                      (filter (λ item, Day item = d) items)).
Proof.
  intros Hplain. destruct (groupItems_lookup items Hplain ∅) as (g & Hg & Hlook).
  exists (Js.sort (compareFn localeCompare) <$> g). unfold groupedByDay.
  rewrite Hg. split; [done|]. intros d.
  rewrite lookup_fmap, Hlook, lookup_empty. by case_decide.
Qed.

Lemma groupedByDay_bucket items grouped d bucket :
  plainDays items →
  groupedByDay localeCompare items = Some grouped →
  grouped !! d = Some bucket →
  bucket = Js.sort (compareFn localeCompare) (filter (λ item, Day item = d) items)
  ∧ bucket ≠ [].
Proof.
  intros Hplain Hg Hd.
  destruct (groupedByDay_lookup items Hplain) as (g & Hg' & Hlook).
  rewrite Hg in Hg'. injection Hg' as <-. rewrite Hlook in Hd.
  case_decide as Hne; [done|]. injection Hd as <-. split; [done|].
  intros Hnil. by apply sort_nil_inv in Hnil.
Qed.

End GroupedByDay.

Lemma Forall_filter_keep {A} (P Q : A → Prop) `{!∀ x, Decision (P x)} (l : list A) :
  Forall Q l → Forall Q (filter P l).
Proof.
  rewrite !Forall_forall. intros HQ x Hx.
  apply list_elem_of_filter in Hx as [_ Hx]. by apply HQ.
Qed.

Lemma filteredSchedule_sublist sg sd D : sublist (filteredSchedule sg sd D) D.
Proof.
  unfold filteredSchedule. destruct sg as [g|]; [|apply sublist_nil_l].
  destruct (negb _); [apply sublist_nil_l|].
  destruct (negb _); [|apply sublist_filter].
  etransitivity; apply sublist_filter.
Qed.

Lemma plainDays_filteredSchedule sg sd D :
  plainDays D → plainDays (filteredSchedule sg sd D).
Proof.
  intros H. unfold filteredSchedule.
  destruct sg as [g|]; [|constructor].
  destruct (negb _); [constructor|].
  destruct (negb _); unfold plainDays; repeat apply Forall_filter_keep; done.
Qed.

(** ** The code unit collation is consistent *)

Module StringOrder := OrdersFacts.OrderedTypeFacts String_as_OT.

#[global] Instance codeUnitCompare_consistent : Consistent codeUnitCompare.
Proof.
  split.
  - intros a b. unfold codeUnitCompare.
    assert (String_as_OT.compare b a = CompOpp (String_as_OT.compare a b)) as ->
      by apply StringOrder.compare_antisym.
    destruct (String_as_OT.compare a b); simpl; lia.
  - intros a b c. unfold codeUnitCompare.
    destruct (String_as_OT.compare_spec a b) as [->|Hab|Hab]; [tauto| |lia].
    destruct (String_as_OT.compare_spec b c) as [<-|Hbc|Hbc]; [| |lia].
    + intros _ _. unfold String_as_OT.lt in Hab. rewrite Hab. lia.
    + intros _ _. assert (Hac : String_as_OT.lt a c) by (by etransitivity).
      unfold String_as_OT.lt in Hac. rewrite Hac. lia.
Qed.

#[global] Instance compareFn_consistent localeCompare :
  Consistent localeCompare → Consistent (compareFn localeCompare).
Proof.
  intros [Hflip Htrans]. split; unfold compareFn.
  - intros a b. apply Hflip.
  - intros a b c. apply Htrans.
Qed.

Lemma plainDays_sampleSchedule : plainDays sampleSchedule.
Proof. apply (bool_decide_unpack _). by vm_compute. Qed.

(** ** The render model *)

(** C2. With a consistent [localeCompare] and a dataset whose days are
    plain keys, the bucket of every day [d] is non-decreasing in the start
    time under [localeCompare], holds the day's filtered sessions, and
    keeps sessions with equal start times (equal as strings, or equal under
    the collation) in their order in the filtered sequence, which is the
    dataset's. *)
Theorem groupedByDay_sorted_stable (localeCompare : string → string → Z)
    (D : list ClassSchedule) (sg : option string) (sd d : string) :
  Consistent localeCompare →
  plainDays D →
  ∃ grouped,
    groupedByDay localeCompare (filteredSchedule sg sd D) = Some grouped ∧
    ∀ bucket, grouped !! d = Some bucket →
      let original := filter (λ item, Day item = d) (filteredSchedule sg sd D) in
      StronglySorted
        (λ a b, (localeCompare (startTime a) (startTime b) ≤ 0)%Z) bucket
      ∧ bucket ≡ₚ original
      ∧ sublist original D
      ∧ (∀ t, filter (λ item, startTime item = t) bucket
              = filter (λ item, startTime item = t) original)
      ∧ (∀ t, filter (λ item, localeCompare (startTime item) t = 0%Z) bucket
              = filter (λ item, localeCompare (startTime item) t = 0%Z) original).
Proof.
  intros Hcons Hplain.
  pose proof (plainDays_filteredSchedule sg sd D Hplain) as HF.
  destruct (groupedByDay_lookup localeCompare _ HF) as (grouped & Hg & _).
  exists grouped. split; [done|]. intros bucket Hd original.
  destruct (groupedByDay_bucket localeCompare _ _ _ _ HF Hg Hd) as [-> _].
  fold original. repeat split.
  - exact (sort_sorted (compareFn localeCompare) original).
  - apply sort_perm.
  - etransitivity; [apply sublist_filter | apply filteredSchedule_sublist].
  - intros t. apply sort_filter. intros x y Hx Hy. unfold compareFn.
    rewrite Hx, Hy. apply (compare_refl localeCompare).
  - intros t. apply sort_filter. intros x y Hx Hy. unfold compareFn.
    by apply (compare_zero_class localeCompare _ _ t).
Qed.

Lemma groupedByDay_sorted_stable_witness :
  Consistent codeUnitCompare ∧ plainDays sampleSchedule ∧
  ∃ grouped,
    groupedByDay codeUnitCompare (filteredSchedule (Some "L4CG1") "ALL" sampleSchedule)
      = Some grouped ∧
    ∀ bucket, grouped !! "MON" = Some bucket →
      let original :=
        filter (λ item, Day item = "MON")
               (filteredSchedule (Some "L4CG1") "ALL" sampleSchedule) in
      StronglySorted
        (λ a b, (codeUnitCompare (startTime a) (startTime b) ≤ 0)%Z) bucket
      ∧ bucket ≡ₚ original
      ∧ sublist original sampleSchedule
      ∧ (∀ t, filter (λ item, startTime item = t) bucket
              = filter (λ item, startTime item = t) original)
      ∧ (∀ t, filter (λ item, codeUnitCompare (startTime item) t = 0%Z) bucket
              = filter (λ item, codeUnitCompare (startTime item) t = 0%Z) original).
Proof.
  split; [exact codeUnitCompare_consistent|].
  split; [exact plainDays_sampleSchedule|].
  exact (groupedByDay_sorted_stable codeUnitCompare sampleSchedule (Some "L4CG1")
           "ALL" "MON" codeUnitCompare_consistent plainDays_sampleSchedule).
Defined.

(** C9. The buckets partition the filtered sequence: a bucket holds only
    sessions of its own day, every filtered session is in the bucket of
    its day, and all buckets together are a rearrangement of the filtered
    sequence. *)
Theorem groupedByDay_partition (localeCompare : string → string → Z)
    (D : list ClassSchedule) (sg : option string) (sd : string) :
  plainDays D →
  ∃ grouped,
    groupedByDay localeCompare (filteredSchedule sg sd D) = Some grouped ∧
    (∀ d bucket, grouped !! d = Some bucket → Forall (λ item, Day item = d) bucket)
    ∧ (∀ item, item ∈ filteredSchedule sg sd D →
         ∃ bucket, grouped !! Day item = Some bucket ∧ item ∈ bucket)
    ∧ allBuckets grouped ≡ₚ filteredSchedule sg sd D.
Proof.
  intros Hplain.
  pose proof (plainDays_filteredSchedule sg sd D Hplain) as HF.
  destruct (groupedByDay_lookup localeCompare _ HF) as (grouped & Hg & Hlook).
  exists grouped. split; [done|]. repeat split.
  - intros d bucket Hd.
    destruct (groupedByDay_bucket localeCompare _ _ _ _ HF Hg Hd) as [-> _].
    rewrite sort_perm. apply Forall_forall. intros x Hx.
    by apply list_elem_of_filter in Hx as [Hx _].
  - intros item Hitem.
    assert (Hin : item ∈ filter (λ x, Day x = Day item) (filteredSchedule sg sd D))
      by (by apply list_elem_of_filter).
    rewrite Hlook. case_decide as Hnil.
    + rewrite Hnil in Hin. by apply elem_of_nil in Hin.
    + eexists. split; [done|]. by rewrite sort_perm.
  - unfold groupedByDay in Hg.
    destruct (groupItems (filteredSchedule sg sd D) ∅) as [g|] eqn:E; [|done].
    injection Hg as <-. rewrite allBuckets_fmap_perm by apply sort_perm.
    rewrite (groupItems_allBuckets _ _ _ E). unfold allBuckets.
    by rewrite map_to_list_empty.
Qed.

Lemma groupedByDay_partition_witness :
  plainDays sampleSchedule ∧
  ∃ grouped,
    groupedByDay codeUnitCompare (filteredSchedule (Some "L4CG1") "ALL" sampleSchedule)
      = Some grouped ∧
    (∀ d bucket, grouped !! d = Some bucket → Forall (λ item, Day item = d) bucket)
    ∧ (∀ item, item ∈ filteredSchedule (Some "L4CG1") "ALL" sampleSchedule →
         ∃ bucket, grouped !! Day item = Some bucket ∧ item ∈ bucket)
    ∧ allBuckets grouped ≡ₚ filteredSchedule (Some "L4CG1") "ALL" sampleSchedule.
Proof.
  split; [exact plainDays_sampleSchedule|].
  exact (groupedByDay_partition codeUnitCompare sampleSchedule (Some "L4CG1") "ALL"
           plainDays_sampleSchedule).
Defined.

(** ** The ALL view *)

Lemma renderDaySection_keys grouped (days : list string) :
  (∀ d bucket, grouped !! d = Some bucket → bucket ≠ []) →
  sectionKey <$> shownSections (renderDaySection grouped <$> days)
  = Some <$> filter (λ day, is_Some (grouped !! day)) days.
Proof.
  intros Hne. unfold shownSections.
  induction days as [|day days IH]; [done|].
  rewrite filter_cons. simpl. unfold renderDaySection at 1.
  destruct (grouped !! day) as [[|x bucket]|] eqn:E.
  - by destruct (Hne day [] E).
  - rewrite decide_True by eauto. simpl. f_equal. exact IH.
  - rewrite decide_False by (intros [? ?]; done). apply IH.
Qed.

Lemma renderDaySection_shown grouped (days : list string) sec :
  sec ∈ shownSections (renderDaySection grouped <$> days) →
  ∃ day, day ∈ days ∧ grouped !! day = Some (sectionClasses sec)
         ∧ sectionKey sec = Some day.
Proof.
  unfold shownSections. rewrite list_elem_of_omap.
  intros (o & Ho & Hsec). simpl in Hsec. subst o.
  apply list_elem_of_fmap in Ho as (day & Hday & Hin).
  exists day. split; [done|]. unfold renderDaySection in Hday.
  destruct (grouped !! day) as [bucket|]; [|done].
  destruct (length bucket =? 0)%nat; [done|]. by injection Hday as ->.
Qed.

Lemma SAT_not_in_DAYS : "SAT" ∉ DAYS.
Proof. apply (bool_decide_unpack _). by vm_compute. Qed.

(** C3. In the ALL view the day sections come in the order of
    SUN, MON, TUE, WED, THU, FRI (the days that have classes, in that
    order); no section is keyed SAT and no session of a Saturday is
    shown, whatever the grouped data holds under SAT. *)
Theorem renderSchedule_ALL_fixed_order (localeCompare : string → string → Z)
    (D : list ClassSchedule) (sg : option string) :
  plainDays D →
  ∃ grouped,
    groupedByDay localeCompare (filteredSchedule sg "ALL" D) = Some grouped ∧
    let shown := shownSections (renderSchedule "ALL" grouped) in
    sectionKey <$> shown
      = Some <$> filter (λ day, is_Some (grouped !! day))
                   ["SUN"; "MON"; "TUE"; "WED"; "THU"; "FRI"]
    ∧ sublist (sectionKey <$> shown)
        (Some <$> ["SUN"; "MON"; "TUE"; "WED"; "THU"; "FRI"])
    ∧ ¬ (Some "SAT" ∈ sectionKey <$> shown)
    ∧ ∀ sec item, sec ∈ shown → item ∈ sectionClasses sec →
        sectionKey sec = Some (Day item) ∧ Day item ≠ "SAT".
Proof.
  intros Hplain.
  pose proof (plainDays_filteredSchedule sg "ALL" D Hplain) as HF.
  destruct (groupedByDay_lookup localeCompare _ HF) as (grouped & Hg & _).
  exists grouped. split; [done|]. intros shown.
  assert (Hkeys : sectionKey <$> shown
                  = Some <$> filter (λ day, is_Some (grouped !! day)) DAYS).
  { apply renderDaySection_keys. intros d bucket Hd.
    by destruct (groupedByDay_bucket localeCompare _ _ _ _ HF Hg Hd). }
  split; [exact Hkeys|]. split; [|split].
  - rewrite Hkeys. apply fmap_sublist, sublist_filter.
  - rewrite Hkeys. intros Hin.
    apply list_elem_of_fmap in Hin as (day & [= <-] & Hin).
    apply list_elem_of_filter in Hin as [_ Hin]. by apply SAT_not_in_DAYS.
  - intros sec item Hsec Hitem.
    apply renderDaySection_shown in Hsec as (day & Hday & Hbucket & Hkey).
    destruct (groupedByDay_bucket localeCompare _ _ _ _ HF Hg Hbucket) as [Heq _].
    rewrite Heq, sort_perm in Hitem.
    apply list_elem_of_filter in Hitem as [-> _].
    split; [done|]. intros Hsat. rewrite Hsat in Hday. by apply SAT_not_in_DAYS.
Qed.

Lemma renderSchedule_ALL_fixed_order_witness :
  plainDays sampleSchedule ∧
  ∃ grouped,
    groupedByDay codeUnitCompare (filteredSchedule (Some "L4CG1") "ALL" sampleSchedule)
      = Some grouped ∧
    let shown := shownSections (renderSchedule "ALL" grouped) in
    sectionKey <$> shown
      = Some <$> filter (λ day, is_Some (grouped !! day))
                   ["SUN"; "MON"; "TUE"; "WED"; "THU"; "FRI"]
    ∧ sublist (sectionKey <$> shown)
        (Some <$> ["SUN"; "MON"; "TUE"; "WED"; "THU"; "FRI"])
    ∧ ¬ (Some "SAT" ∈ sectionKey <$> shown)
    ∧ ∀ sec item, sec ∈ shown → item ∈ sectionClasses sec →
        sectionKey sec = Some (Day item) ∧ Day item ≠ "SAT".
Proof.
  split; [exact plainDays_sampleSchedule|].
  exact (renderSchedule_ALL_fixed_order codeUnitCompare sampleSchedule (Some "L4CG1")
           plainDays_sampleSchedule).
Defined.

(** On the sample dataset, for L4CG1: the Monday bucket comes out by start
    time, the two 09:00 sessions in dataset order. *)
Example groupedByDay_sample :
  ∃ grouped,
    groupedByDay codeUnitCompare (filteredSchedule (Some "L4CG1") "ALL" sampleSchedule)
      = Some grouped
    ∧ option_map (List.map (λ item, (Time item, ClassType item))) (grouped !! "MON")
      = Some [("09:00 - 10:00", "Tutorial"); ("09:00 - 09:30", "Workshop");
              ("10:00 - 11:00", "Lecture")].
Proof. eexists. split; [reflexivity|]. by vm_compute. Qed.

(** A [Day] that names a member of [Object.prototype] makes the grouping
    throw. *)
Example groupedByDay_inherited_key :
  groupedByDay codeUnitCompare [mkClass "toString" "" "" "" "" "" "" ""] = None.
Proof. reflexivity. Qed.

(** The sample dataset has a Saturday session for L4CG1: it is grouped
    under SAT and the ALL view still shows Monday only. *)
Example renderSchedule_ALL_sample :
  ∃ grouped,
    groupedByDay codeUnitCompare (filteredSchedule (Some "L4CG1") "ALL" sampleSchedule)
      = Some grouped
    ∧ length <$> grouped !! "SAT" = Some 1%nat
    ∧ sectionKey <$> shownSections (renderSchedule "ALL" grouped) = [Some "MON"].
Proof. eexists. split; [reflexivity|]. by vm_compute. Qed.

(** ** The handlers, run *)

(** Unfolds a handler down to the world it returns. *)
Ltac run_async :=
  cbv [exec loadSavedData saveGroup toggleTheme changeGroup handle
       tryCatchFinally tryCatch promiseAll2
       SecureStore.getItemAsync SecureStore.setItemAsync SecureStore.deleteItemAsync
       setSelectedGroup setSelectedDay setIsLoading setIsDarkMode setState
       consoleLog alert readState mbind mret Async_bind Async_ret fst snd].

Lemma loadSavedData_read w :
  exec (loadSavedData Fulfilled Fulfilled) w
  = mkWorld
      (mkState
         (match acceptedGroup (storeItems w !! GROUP_STORAGE_KEY) with
          | Some g => Some g
          | None => selectedGroup (ui w)
          end)
         (selectedDay (ui w)) false
         (if bool_decide (storeItems w !! THEME_STORAGE_KEY = Some "dark")
          then true else isDarkMode (ui w)))
      (storeItems w) (consoleLines w) (alertsRaised w).
Proof.
  unfold acceptedGroup. run_async.
  destruct (storeItems w !! GROUP_STORAGE_KEY) as [g|];
    destruct (bool_decide (storeItems w !! THEME_STORAGE_KEY = Some "dark")).
  1,2: unfold Js.arrayIncludes; destruct (bool_decide (g ∈ GROUPS)) eqn:Hg;
       [apply bool_decide_eq_true_1, GROUPS_truthy in Hg; rewrite Hg
       |rewrite andb_false_r]; reflexivity.
  all: reflexivity.
Qed.

Lemma loadSavedData_failed rGroup rTheme w :
  rGroup = Rejected ∨ rTheme = Rejected →
  exec (loadSavedData rGroup rTheme) w
  = mkWorld (mkState (selectedGroup (ui w)) (selectedDay (ui w)) false (isDarkMode (ui w)))
      (storeItems w) (consoleLines w ++ ["Error loading saved data:"])
      (alertsRaised w).
Proof. intros [-> | ->]; [destruct rTheme | destruct rGroup]; reflexivity. Qed.

Lemma saveGroup_written g w :
  exec (saveGroup Fulfilled g) w
  = mkWorld (mkState (Some g) (selectedDay (ui w)) (isLoading (ui w)) (isDarkMode (ui w)))
      (<[GROUP_STORAGE_KEY := g]> (storeItems w)) (consoleLines w) (alertsRaised w).
Proof. reflexivity. Qed.

Lemma saveGroup_failed g w :
  exec (saveGroup Rejected g) w
  = mkWorld (ui w) (storeItems w) (consoleLines w ++ ["Error saving group:"])
      (alertsRaised w ++ [("Error", "Failed to save group selection")]).
Proof. reflexivity. Qed.

Lemma toggleTheme_run r w :
  exec (toggleTheme r) w
  = mkWorld
      (mkState (selectedGroup (ui w)) (selectedDay (ui w)) (isLoading (ui w))
         (negb (isDarkMode (ui w))))
      (match r with
       | Fulfilled =>
           <[THEME_STORAGE_KEY := if negb (isDarkMode (ui w)) then "dark" else "light"]>
             (storeItems w)
       | Rejected => storeItems w
       end)
      (match r with
       | Fulfilled => consoleLines w
       | Rejected => consoleLines w ++ ["Error saving theme:"]
       end)
      (alertsRaised w).
Proof. destruct r; reflexivity. Qed.

Lemma changeGroup_run pressed r w :
  exec (changeGroup pressed r) w
  = mkWorld
      (match pressed, r with
       | Yes, Fulfilled =>
           mkState None (selectedDay (ui w)) (isLoading (ui w)) (isDarkMode (ui w))
       | _, _ => ui w
       end)
      (match pressed, r with
       | Yes, Fulfilled => delete GROUP_STORAGE_KEY (storeItems w)
       | _, _ => storeItems w
       end)
      (match pressed, r with
       | Yes, Rejected => consoleLines w ++ ["Error clearing group:"]
       | _, _ => consoleLines w
       end)
      (alertsRaised w
       ++ [("Change Group", "Are you sure you want to change your group?")]).
Proof. destruct pressed, r; reflexivity. Qed.

(** C4. Picking a valid group with a successful write, then restarting and
    loading the saved data from the same store, restores that group. *)
Theorem saveGroup_then_restart_restores (g : string) (w : World) (dayIndex : nat) :
  g ∈ GROUPS →
  let saved := exec (saveGroup Fulfilled g) w in
  let restored := exec (loadSavedData Fulfilled Fulfilled) (restart dayIndex saved) in
  selectedGroup (ui saved) = Some g
  ∧ storeItems saved !! GROUP_STORAGE_KEY = Some g
  ∧ selectedGroup (ui restored) = Some g
  ∧ isLoading (ui restored) = false.
Proof.
  intros Hg saved restored. subst saved restored.
  rewrite loadSavedData_read, saveGroup_written. simpl.
  rewrite lookup_insert_eq. simpl.
  by rewrite (bool_decide_eq_true_2 _ Hg).
Qed.

Lemma saveGroup_then_restart_restores_witness :
  "L4CG2" ∈ GROUPS ∧
  let saved := exec (saveGroup Fulfilled "L4CG2") sampleWorld in
  let restored := exec (loadSavedData Fulfilled Fulfilled) (restart 3 saved) in
  selectedGroup (ui saved) = Some "L4CG2"
  ∧ storeItems saved !! GROUP_STORAGE_KEY = Some "L4CG2"
  ∧ selectedGroup (ui restored) = Some "L4CG2"
  ∧ isLoading (ui restored) = false.
Proof.
  assert (H : "L4CG2" ∈ GROUPS) by (apply (bool_decide_unpack _); by vm_compute).
  exact (conj H (saveGroup_then_restart_restores "L4CG2" sampleWorld 3 H)).
Defined.

(** Counterexample to C5 as stated: after a confirmed change whose
    deletion is rejected the group is still selected, not cleared. *)
Lemma changeGroup_delete_failure_not_cleared :
  selectedGroup (ui sampleWorld) = Some "L4CG1"
  ∧ selectedGroup (ui (exec (changeGroup Yes Rejected) sampleWorld)) = Some "L4CG1"
  ∧ selectedGroup (ui (exec (changeGroup Yes Rejected) sampleWorld)) ≠ None.
Proof. repeat split. discriminate. Qed.

(** C5, amended. A confirmed change whose deletion is rejected leaves the
    component state and the stored items as they were and logs the error;
    the group is cleared only by a deletion that went through, and then the
    stored group is gone too. *)
Theorem changeGroup_clears_only_after_delete (w : World) :
  (let failed := exec (changeGroup Yes Rejected) w in
   ui failed = ui w
   ∧ storeItems failed = storeItems w
   ∧ consoleLines failed = consoleLines w ++ ["Error clearing group:"])
  ∧ (let done := exec (changeGroup Yes Fulfilled) w in
     selectedGroup (ui done) = None
     ∧ storeItems done !! GROUP_STORAGE_KEY = None).
Proof.
  rewrite !changeGroup_run. simpl. repeat split.
  apply lookup_delete_eq.
Qed.

(** C6. When the write of [saveGroup] is rejected, the component state
    (so the selected group) and the stored items are what they were before
    the call, and the alert is raised; with a write that went through, the
    group is both stored and selected. *)
Theorem saveGroup_failure_keeps_state (g : string) (w : World) :
  (let failed := exec (saveGroup Rejected g) w in
   selectedGroup (ui failed) = selectedGroup (ui w)
   ∧ ui failed = ui w
   ∧ storeItems failed = storeItems w
   ∧ alertsRaised failed
     = alertsRaised w ++ [("Error", "Failed to save group selection")])
  ∧ (let saved := exec (saveGroup Fulfilled g) w in
     selectedGroup (ui saved) = Some g
     ∧ storeItems saved !! GROUP_STORAGE_KEY = Some g).
Proof.
  rewrite saveGroup_failed, saveGroup_written. simpl. repeat split.
  apply lookup_insert_eq.
Qed.

(** C7. Loading the saved data at mount, for any stored items and any
    outcome of the two reads: loading ends false; when both reads succeed
    the group is the stored one if it is in [GROUPS] and none otherwise,
    and the theme is dark exactly when the stored theme is "dark"; when a
    read fails the group is none and the theme light. *)
Theorem loadSavedData_outcomes (items : gmap string string) (dayIndex : nat)
    (rGroup rTheme : Settled) :
  let loaded := exec (loadSavedData rGroup rTheme) (mount dayIndex items) in
  isLoading (ui loaded) = false
  ∧ selectedGroup (ui loaded)
    = match rGroup, rTheme with
      | Fulfilled, Fulfilled =>
          match items !! GROUP_STORAGE_KEY with
          | Some stored => if bool_decide (stored ∈ GROUPS) then Some stored else None
          | None => None
          end
      | _, _ => None
      end
  ∧ isDarkMode (ui loaded)
    = match rGroup, rTheme with
      | Fulfilled, Fulfilled => bool_decide (items !! THEME_STORAGE_KEY = Some "dark")
      | _, _ => false
      end
  ∧ selectedDay (ui loaded) = initialSelectedDay dayIndex
  ∧ storeItems loaded = items.
Proof.
  intros loaded. subst loaded.
  destruct rGroup, rTheme.
  2-4: rewrite loadSavedData_failed by auto; by repeat split.
  rewrite loadSavedData_read. simpl. unfold acceptedGroup. repeat split.
  - destruct (items !! GROUP_STORAGE_KEY) as [stored|]; [|done].
    by destruct (bool_decide (stored ∈ GROUPS)).
  - by destruct (bool_decide (items !! THEME_STORAGE_KEY = Some "dark")).
Qed.

(** C8. Two theme toggles with both writes successful bring the theme
    back to what it was, and the stored theme names the final in-memory
    theme; the same holds after the first toggle alone. *)
Theorem toggleTheme_twice (w : World) :
  let once := exec (toggleTheme Fulfilled) w in
  let twice := exec (toggleTheme Fulfilled) once in
  isDarkMode (ui twice) = isDarkMode (ui w)
  ∧ storeItems twice !! THEME_STORAGE_KEY
    = Some (if isDarkMode (ui twice) then "dark" else "light")
  ∧ isDarkMode (ui once) = negb (isDarkMode (ui w))
  ∧ storeItems once !! THEME_STORAGE_KEY
    = Some (if isDarkMode (ui once) then "dark" else "light")
  ∧ selectedGroup (ui twice) = selectedGroup (ui w)
  ∧ selectedDay (ui twice) = selectedDay (ui w).
Proof.
  intros once twice. subst once twice. rewrite !toggleTheme_run. simpl.
  rewrite !lookup_insert_eq, negb_involutive. done.
Qed.

(** ** The selected day *)

Lemma DAYS_in_picker day :
  day ∈ DAYS → day ∈ ["ALL"; "SUN"; "MON"; "TUE"; "WED"; "THU"; "FRI"].
Proof. intros H. by apply list_elem_of_further. Qed.

Lemma initialSelectedDay_cases dayIndex :
  initialSelectedDay dayIndex
  = match DAYS !! dayIndex with
    | Some today => today
    | None => "ALL"
    end.
Proof. do 7 (destruct dayIndex as [|dayIndex]; [reflexivity|]). reflexivity. Qed.

Lemma initialSelectedDay_in_picker dayIndex :
  initialSelectedDay dayIndex ∈ ["ALL"; "SUN"; "MON"; "TUE"; "WED"; "THU"; "FRI"].
Proof.
  rewrite initialSelectedDay_cases.
  destruct (DAYS !! dayIndex) as [today|] eqn:E.
  - by eapply DAYS_in_picker, list_elem_of_lookup_2.
  - apply list_elem_of_here.
Qed.

(** Only the day picker writes [selectedDay]. *)
Lemma handle_selectedDay ev w :
  selectedDay (ui (exec (handle ev) w))
  = match ev with
    | PressAll => "ALL"
    | PressDay day => day
    | _ => selectedDay (ui w)
    end.
Proof.
  destruct ev as [rGroup rTheme|group r|r|pressed r| |day]; simpl handle.
  - destruct rGroup, rTheme.
    2-4: rewrite loadSavedData_failed by auto; reflexivity.
    by rewrite loadSavedData_read.
  - by destruct r.
  - by rewrite toggleTheme_run.
  - by destruct pressed, r.
  - reflexivity.
  - reflexivity.
Qed.

Lemma step_selectedDay w ev w' :
  step w ev w' →
  selectedDay (ui w) ∈ ["ALL"; "SUN"; "MON"; "TUE"; "WED"; "THU"; "FRI"] →
  selectedDay (ui w') ∈ ["ALL"; "SUN"; "MON"; "TUE"; "WED"; "THU"; "FRI"].
Proof.
  intros [Hoff] Hin. rewrite handle_selectedDay.
  destruct ev; try done.
  - apply list_elem_of_here.
  - simpl in Hoff. apply andb_true_iff in Hoff as [_ Hday].
    unfold Js.arrayIncludes in Hday. apply bool_decide_eq_true in Hday.
    by apply DAYS_in_picker.
Qed.

(** C10. The selected day starts as today's abbreviation when today is one
    of SUN to FRI and as ALL otherwise (Saturday included), and in every
    reachable state it is ALL or one of SUN to FRI, never SAT. *)
Theorem selectedDay_never_SAT :
  (∀ dayIndex today, DAYS !! dayIndex = Some today →
     initialSelectedDay dayIndex = today)
  ∧ (∀ dayIndex, DAYS !! dayIndex = None → initialSelectedDay dayIndex = "ALL")
  ∧ dayMap !! 6%nat = Some "SAT" ∧ initialSelectedDay 6 = "ALL"
  ∧ ∀ w, reachable w →
      selectedDay (ui w) ∈ ["ALL"; "SUN"; "MON"; "TUE"; "WED"; "THU"; "FRI"]
      ∧ selectedDay (ui w) ≠ "SAT".
Proof.
  split; [|split; [|split; [|split]]]; try reflexivity.
  - intros dayIndex today H. by rewrite initialSelectedDay_cases, H.
  - intros dayIndex H. by rewrite initialSelectedDay_cases, H.
  - intros w Hreach.
    assert (Hin : selectedDay (ui w)
                  ∈ ["ALL"; "SUN"; "MON"; "TUE"; "WED"; "THU"; "FRI"]).
    { induction Hreach as [dayIndex items|w ev w' _ IH Hstep].
      - apply initialSelectedDay_in_picker.
      - by eapply step_selectedDay. }
    split; [done|]. intros Heq. rewrite Heq in Hin.
    revert Hin. apply (bool_decide_unpack _). by vm_compute.
Qed.

(** A reachable world: mounted on a Wednesday over an empty store, saved
    data loaded, group L4CG3 picked, Friday pressed. *)
Lemma sample_reachable :
  reachable
    (exec (handle (PressDay "FRI"))
       (exec (handle (PressGroup "L4CG3" Fulfilled))
          (exec (handle (Mounted Fulfilled Fulfilled)) (mount 3 ∅)))).
Proof.
  repeat (eapply reachable_step; [|constructor; by vm_compute]).
  apply reachable_mount.
Defined.

Lemma selectedDay_never_SAT_witness :
  let w := exec (handle (PressDay "FRI"))
             (exec (handle (PressGroup "L4CG3" Fulfilled))
                (exec (handle (Mounted Fulfilled Fulfilled)) (mount 3 ∅))) in
  reachable w
  ∧ selectedDay (ui w) ∈ ["ALL"; "SUN"; "MON"; "TUE"; "WED"; "THU"; "FRI"]
  ∧ selectedDay (ui w) ≠ "SAT".
Proof.
  intros w. split; [exact sample_reachable|].
  exact (proj2 (proj2 (proj2 (proj2 selectedDay_never_SAT))) w sample_reachable).
Defined.


(** * Further properties of the component *)

(** ** Filtering by day *)

Lemma filteredSchedule_day sg d D :
  d ≠ "ALL" →
  filteredSchedule sg d D
  = filter (λ item, Day item = d) (filteredSchedule sg "ALL" D).
Proof.
  intros Hd. unfold filteredSchedule. destruct sg as [g|]; [|done].
  destruct (negb (Js.truthy (Some g))); [done|].
  by rewrite (bool_decide_eq_false_2 _ Hd).
Qed.

Lemma non_empty_truthy g : g ≠ "" → Js.truthy (Some g) = true.
Proof. intros Hg. unfold Js.truthy. by rewrite (bool_decide_eq_false_2 _ Hg). Qed.

Lemma filteredSchedule_elem_of sg sd D x :
  x ∈ filteredSchedule sg sd D ↔
  ∃ g, sg = Some g ∧ g ≠ "" ∧ x ∈ D ∧ substring_of g (Group x)
       ∧ (sd = "ALL" ∨ Day x = sd).
Proof.
  unfold filteredSchedule. destruct sg as [g|].
  2: { rewrite elem_of_nil. split; [done | by intros (g & ? & _)]. }
  destruct (decide (g = "")) as [->|Hg].
  { simpl. rewrite elem_of_nil. split; [done|].
    by intros (g & [= <-] & Hg & _). }
  rewrite (non_empty_truthy g Hg). simpl.
  destruct (decide (sd = "ALL")) as [->|Hsd].
  - simpl. rewrite list_elem_of_filter, Is_true_true, includes_spec. split.
    + intros [Hsub Hx]. exists g.
      exact (conj eq_refl (conj Hg (conj Hx (conj Hsub (or_introl eq_refl))))).
    + intros (g' & [= <-] & _ & Hx & Hsub & _). auto.
  - rewrite (bool_decide_eq_false_2 _ Hsd). simpl.
    rewrite !list_elem_of_filter, Is_true_true, includes_spec. split.
    + intros (Hday & Hsub & Hx). exists g.
      exact (conj eq_refl (conj Hg (conj Hx (conj Hsub (or_intror Hday))))).
    + intros (g' & [= <-] & _ & Hx & Hsub & [?|Hday]); [done | auto].
Qed.

(** X1. For a non-empty group [g] and a day [d] other than ALL, the
    filtered schedule is the dataset with exactly the sessions removed
    that are not both tagged with [g] and held on [d]; it is the ALL
    result filtered by day. *)
Theorem filteredSchedule_day_exact (g d : string) (D : list ClassSchedule) :
  g ≠ "" → d ≠ "ALL" →
  selects (λ item, Day item = d ∧ substring_of g (Group item)) D
    (filteredSchedule (Some g) d D)
  ∧ filteredSchedule (Some g) d D
    = filter (λ item, Day item = d) (filteredSchedule (Some g) "ALL" D).
Proof.
  intros Hg Hd. split; [|by apply filteredSchedule_day].
  unfold filteredSchedule. rewrite (non_empty_truthy g Hg). simpl.
  rewrite (bool_decide_eq_false_2 _ Hd). simpl.
  rewrite list_filter_filter. apply filter_selects.
  intros x. by rewrite Is_true_true, includes_spec.
Qed.

Lemma filteredSchedule_day_exact_witness :
  "L4CG1" ≠ "" ∧ "MON" ≠ "ALL" ∧
  selects (λ item, Day item = "MON" ∧ substring_of "L4CG1" (Group item)) sampleSchedule
    (filteredSchedule (Some "L4CG1") "MON" sampleSchedule)
  ∧ filteredSchedule (Some "L4CG1") "MON" sampleSchedule
    = filter (λ item, Day item = "MON")
        (filteredSchedule (Some "L4CG1") "ALL" sampleSchedule).
Proof.
  assert (Hg : "L4CG1" ≠ "") by discriminate.
  assert (Hd : "MON" ≠ "ALL") by discriminate.
  exact (conj Hg (conj Hd (filteredSchedule_day_exact "L4CG1" "MON" sampleSchedule Hg Hd))).
Defined.

(** ** When the grouping throws, and what its keys are *)

Lemma groupItems_inherited items : ∀ grouped,
  (∀ d, is_Some (grouped !! d) → d ∉ Js.objectPrototypeKeys) →
  (∃ item, item ∈ items ∧ Day item ∈ Js.objectPrototypeKeys) →
  groupItems items grouped = None.
Proof.
  induction items as [|item items IH]; intros grouped Hown (bad & Hin & Hbad).
  - by apply elem_of_nil in Hin.
  - simpl. unfold groupItem.
    destruct (decide (Day item ∈ Js.objectPrototypeKeys)) as [Hitem|Hitem].
    + destruct (grouped !! Day item) as [arr|] eqn:E.
      * destruct (Hown (Day item)); eauto.
      * unfold Js.arrayIncludes. by rewrite (bool_decide_eq_true_2 _ Hitem).
    + apply elem_of_cons in Hin as [->|Hin]; [done|].
      assert (∃ arr, (match grouped !! Day item with
                      | Some arr => Some (<[Day item := arr ++ [item]]> grouped)
                      | None =>
                          if Js.arrayIncludes Js.objectPrototypeKeys (Day item)
                          then None
                          else Some (<[Day item := [] ++ [item]]> grouped)
                      end) = Some (<[Day item := arr]> grouped)) as [arr ->].
      { destruct (grouped !! Day item) as [arr|]; [by eexists|].
        unfold Js.arrayIncludes. rewrite (bool_decide_eq_false_2 _ Hitem).
        by eexists. }
      apply IH; [|by exists bad].
      intros d [v Hd]. destruct (decide (Day item = d)) as [<-|Hne]; [done|].
      rewrite lookup_insert_ne in Hd by done. apply Hown. eauto.
Qed.

(** X2. The grouping throws exactly when some session handed to it has a
    [Day] that names a member of [Object.prototype]; the collation plays
    no part. *)
Theorem groupedByDay_throws_iff (localeCompare : string → string → Z)
    (items : list ClassSchedule) :
  groupedByDay localeCompare items = None
  ↔ ∃ item, item ∈ items ∧ Day item ∈ Js.objectPrototypeKeys.
Proof.
  split.
  - intros Hnone. destruct (decide (plainDays items)) as [Hplain|Hplain].
    + destruct (groupedByDay_lookup localeCompare items Hplain) as (g & Hg & _).
      congruence.
    + apply not_Forall_Exists in Hplain; [|apply _].
      apply Exists_exists in Hplain as (item & Hin & Hbad). exists item.
      split; [done|]. simpl in Hbad.
      by destruct (decide (Day item ∈ Js.objectPrototypeKeys)).
  - intros Hbad. unfold groupedByDay.
    rewrite (groupItems_inherited items ∅); [done| |done].
    intros d [v Hd]. by rewrite lookup_empty in Hd.
Qed.

(** X3. On plain days the keys of the grouped object are exactly the days
    that occur among the sessions, and the array under a key is never
    empty: it has one entry per session of that day. *)
Theorem groupedByDay_keys (localeCompare : string → string → Z)
    (items : list ClassSchedule) :
  plainDays items →
  ∃ grouped,
    groupedByDay localeCompare items = Some grouped ∧
    ∀ d, (is_Some (grouped !! d) ↔ ∃ item, item ∈ items ∧ Day item = d)
         ∧ ∀ bucket, grouped !! d = Some bucket →
             bucket ≠ []
             ∧ length bucket = length (filter (λ item, Day item = d) items).
Proof.
  intros Hplain.
  destruct (groupedByDay_lookup localeCompare items Hplain) as (grouped & Hg & Hlook).
  exists grouped. split; [done|]. intros d. split.
  - rewrite Hlook. case_decide as Hnil.
    + split; [by intros [? ?]|]. intros (item & Hin & Hday).
      assert (item ∈ filter (λ item, Day item = d) items)
        by (by apply list_elem_of_filter).
      rewrite Hnil in H. by apply elem_of_nil in H.
    + split; [|eauto]. intros _.
      destruct (filter (λ item, Day item = d) items) as [|item rest] eqn:E; [done|].
      exists item.
      assert (Hin : item ∈ filter (λ item, Day item = d) items)
        by (rewrite E; apply list_elem_of_here).
      apply list_elem_of_filter in Hin as [? ?]. done.
  - intros bucket Hd.
    destruct (groupedByDay_bucket localeCompare _ _ _ _ Hplain Hg Hd) as [-> Hne].
    split; [done|]. by rewrite sort_perm.
Qed.

Lemma groupedByDay_keys_witness :
  plainDays sampleSchedule ∧
  ∃ grouped,
    groupedByDay codeUnitCompare sampleSchedule = Some grouped ∧
    ∀ d, (is_Some (grouped !! d) ↔ ∃ item, item ∈ sampleSchedule ∧ Day item = d)
         ∧ ∀ bucket, grouped !! d = Some bucket →
             bucket ≠ []
             ∧ length bucket = length (filter (λ item, Day item = d) sampleSchedule).
Proof.
  split; [exact plainDays_sampleSchedule|].
  exact (groupedByDay_keys codeUnitCompare sampleSchedule plainDays_sampleSchedule).
Defined.

(** ** The day view and the ALL view *)

Lemma filter_day_twice d d' (l : list ClassSchedule) :
  filter (λ item, Day item = d') (filter (λ item, Day item = d) l)
  = if decide (d' = d) then filter (λ item, Day item = d) l else [].
Proof.
  case_decide as Hd.
  - subst d'. by apply list_filter_filter_l.
  - induction l as [|x l IH]; [done|].
    rewrite filter_cons. destruct (decide (Day x = d)) as [Hx|Hx]; [|done].
    rewrite filter_cons, IH. by rewrite decide_False by congruence.
Qed.

(** X4. Picking a day changes nothing under that day: the grouped object
    of the day view has the selected day's array exactly as the ALL view
    has it, and no other key. *)
Theorem groupedByDay_day_agrees_with_ALL (localeCompare : string → string → Z)
    (D : list ClassSchedule) (sg : option string) (d : string) :
  d ≠ "ALL" → plainDays D →
  ∃ groupedAll groupedDay,
    groupedByDay localeCompare (filteredSchedule sg "ALL" D) = Some groupedAll
    ∧ groupedByDay localeCompare (filteredSchedule sg d D) = Some groupedDay
    ∧ groupedDay !! d = groupedAll !! d
    ∧ ∀ d', d' ≠ d → groupedDay !! d' = None.
Proof.
  intros Hd Hplain.
  pose proof (plainDays_filteredSchedule sg "ALL" D Hplain) as HA.
  pose proof (plainDays_filteredSchedule sg d D Hplain) as HD.
  destruct (groupedByDay_lookup localeCompare _ HA) as (gA & HgA & HlA).
  destruct (groupedByDay_lookup localeCompare _ HD) as (gD & HgD & HlD).
  exists gA, gD. split; [done|]. split; [done|].
  split; [|intros d' Hne]; rewrite HlD, (filteredSchedule_day sg d D Hd), filter_day_twice.
  - rewrite (decide_True (P := d = d)) by done. by rewrite HlA.
  - by rewrite (decide_False (P := d' = d)) by done.
Qed.

Lemma groupedByDay_day_agrees_with_ALL_witness :
  "MON" ≠ "ALL" ∧ plainDays sampleSchedule ∧
  ∃ groupedAll groupedDay,
    groupedByDay codeUnitCompare (filteredSchedule (Some "L4CG1") "ALL" sampleSchedule)
      = Some groupedAll
    ∧ groupedByDay codeUnitCompare (filteredSchedule (Some "L4CG1") "MON" sampleSchedule)
      = Some groupedDay
    ∧ groupedDay !! "MON" = groupedAll !! "MON"
    ∧ ∀ d', d' ≠ "MON" → groupedDay !! d' = None.
Proof.
  assert (Hd : "MON" ≠ "ALL") by discriminate.
  exact (conj Hd (conj plainDays_sampleSchedule
           (groupedByDay_day_agrees_with_ALL codeUnitCompare sampleSchedule
              (Some "L4CG1") "MON" Hd plainDays_sampleSchedule))).
Defined.

Lemma renderSchedule_day d grouped :
  d ≠ "ALL" →
  (∀ bucket, grouped !! d = Some bucket → bucket ≠ []) →
  renderSchedule d grouped
  = [Some (mkSection None (DAY_NAMES !! d)
             match grouped !! d with
             | Some dayClasses => ClassItems dayClasses
             | None => NoClassesText
             end)].
Proof.
  intros Hd Hne. unfold renderSchedule. rewrite (bool_decide_eq_false_2 _ Hd).
  destruct (grouped !! d) as [[|x bucket]|] eqn:E; [|done..].
  by destruct (Hne [] eq_refl).
Qed.

(** X5. With a day selected the scroll view holds one section, always:
    titled by [DAY_NAMES], with the no-classes text when the filtered
    schedule is empty, and otherwise with all of the filtered schedule,
    sorted. *)
Theorem renderSchedule_day_view (localeCompare : string → string → Z)
    (D : list ClassSchedule) (sg : option string) (d : string) :
  d ≠ "ALL" → plainDays D →
  ∃ grouped,
    groupedByDay localeCompare (filteredSchedule sg d D) = Some grouped
    ∧ renderSchedule d grouped
      = [Some (mkSection None (DAY_NAMES !! d)
                 (if decide (filteredSchedule sg d D = []) then NoClassesText
                  else ClassItems
                         (Js.sort (compareFn localeCompare) (filteredSchedule sg d D))))].
Proof.
  intros Hd Hplain.
  pose proof (plainDays_filteredSchedule sg d D Hplain) as HD.
  destruct (groupedByDay_lookup localeCompare _ HD) as (grouped & Hg & Hlook).
  exists grouped. split; [done|].
  rewrite renderSchedule_day; [|done|].
  - rewrite Hlook.
    assert (filter (λ item, Day item = d) (filteredSchedule sg d D)
            = filteredSchedule sg d D) as ->.
    { rewrite (filteredSchedule_day sg d D Hd), filter_day_twice.
      by rewrite (decide_True (P := d = d)) by done. }
    by case_decide.
  - intros bucket Hb.
    by destruct (groupedByDay_bucket localeCompare _ _ _ _ HD Hg Hb).
Qed.

Lemma renderSchedule_day_view_witness :
  "TUE" ≠ "ALL" ∧ plainDays sampleSchedule ∧
  ∃ grouped,
    groupedByDay codeUnitCompare (filteredSchedule (Some "L4CG1") "TUE" sampleSchedule)
      = Some grouped
    ∧ renderSchedule "TUE" grouped
      = [Some (mkSection None (DAY_NAMES !! "TUE")
                 (if decide (filteredSchedule (Some "L4CG1") "TUE" sampleSchedule = [])
                  then NoClassesText
                  else ClassItems
                         (Js.sort (compareFn codeUnitCompare)
                            (filteredSchedule (Some "L4CG1") "TUE" sampleSchedule))))].
Proof.
  assert (Hd : "TUE" ≠ "ALL") by discriminate.
  exact (conj Hd (conj plainDays_sampleSchedule
           (renderSchedule_day_view codeUnitCompare sampleSchedule
              (Some "L4CG1") "TUE" Hd plainDays_sampleSchedule))).
Defined.

Lemma filter_key_split (d : string) (ds : list string) (l : list ClassSchedule) :
  d ∉ ds →
  filter (λ item, Day item ∈ d :: ds) l
  ≡ₚ filter (λ item, Day item = d) l ++ filter (λ item, Day item ∈ ds) l.
Proof.
  intros Hd. induction l as [|x l IH]; [done|].
  rewrite !filter_cons.
  destruct (decide (Day x = d)) as [Hx|Hx].
  - rewrite decide_True by (rewrite Hx; apply list_elem_of_here).
    rewrite decide_False by (by rewrite Hx). simpl. by rewrite IH.
  - destruct (decide (Day x ∈ ds)) as [Hin|Hin].
    + rewrite decide_True by (by apply list_elem_of_further).
      rewrite IH. apply Permutation_middle.
    + rewrite decide_False; [done|].
      intros [?|?]%elem_of_cons; done.
Qed.

Lemma buckets_of_days (ds : list string) (l : list ClassSchedule) :
  NoDup ds →
  concat ((λ d, filter (λ item, Day item = d) l) <$> ds)
  ≡ₚ filter (λ item, Day item ∈ ds) l.
Proof.
  induction 1 as [|d ds Hd _ IH]; simpl.
  - symmetry. apply Permutation_nil_r.
    induction l as [|x l IHl]; [done|].
    rewrite filter_cons, decide_False; [done|]. apply not_elem_of_nil.
  - by rewrite IH, filter_key_split.
Qed.

Lemma shown_classes grouped (days : list string) :
  concat (sectionClasses <$> shownSections (renderDaySection grouped <$> days))
  = concat ((λ d, default [] (grouped !! d)) <$> days).
Proof.
  unfold shownSections. induction days as [|d days IH]; [done|].
  simpl. unfold renderDaySection at 1.
  destruct (grouped !! d) as [[|x bucket]|]; simpl;
    [exact IH | exact (f_equal (app (x :: bucket)) IH) | exact IH].
Qed.

Lemma NoDup_DAYS : NoDup DAYS.
Proof. apply (bool_decide_unpack _). by vm_compute. Qed.

(** X6. The ALL view shows every filtered session held on one of the six
    days of [DAYS], each once, and nothing else: only the sessions of
    other days (Saturday) are left out. *)
Theorem renderSchedule_ALL_complete (localeCompare : string → string → Z)
    (D : list ClassSchedule) (sg : option string) :
  plainDays D →
  ∃ grouped,
    groupedByDay localeCompare (filteredSchedule sg "ALL" D) = Some grouped
    ∧ concat (sectionClasses <$> shownSections (renderSchedule "ALL" grouped))
      ≡ₚ filter (λ item, Day item ∈ DAYS) (filteredSchedule sg "ALL" D).
Proof.
  intros Hplain.
  pose proof (plainDays_filteredSchedule sg "ALL" D Hplain) as HF.
  destruct (groupedByDay_lookup localeCompare _ HF) as (grouped & Hg & Hlook).
  exists grouped. split; [done|].
  change (renderSchedule "ALL" grouped) with (renderDaySection grouped <$> DAYS).
  rewrite shown_classes, <- (buckets_of_days DAYS _ NoDup_DAYS).
  induction DAYS as [|d ds IH]; [done|]. simpl.
  rewrite IH. apply Permutation_app_tail.
  rewrite Hlook. case_decide as Hnil; simpl; [by rewrite Hnil | apply sort_perm].
Qed.

Lemma renderSchedule_ALL_complete_witness :
  plainDays sampleSchedule ∧
  ∃ grouped,
    groupedByDay codeUnitCompare (filteredSchedule (Some "L4CG1") "ALL" sampleSchedule)
      = Some grouped
    ∧ concat (sectionClasses <$> shownSections (renderSchedule "ALL" grouped))
      ≡ₚ filter (λ item, Day item ∈ DAYS)
           (filteredSchedule (Some "L4CG1") "ALL" sampleSchedule).
Proof.
  split; [exact plainDays_sampleSchedule|].
  exact (renderSchedule_ALL_complete codeUnitCompare sampleSchedule (Some "L4CG1")
           plainDays_sampleSchedule).
Defined.

(** ** The start time of a session *)

Lemma splitHead_whole s sep : Js.includes s sep = false → Js.splitHead s sep = s.
Proof.
  induction s as [|c s IH]; simpl.
  - by destruct (Js.startsWith "" sep).
  - intros [H1 H2]%orb_false_iff. rewrite H1. by rewrite IH.
Qed.

Lemma splitHead_first s sep pre post :
  s = pre +:+ sep +:+ post →
  (∃ rest, s = Js.splitHead s sep +:+ sep +:+ rest)
  ∧ (String.length (Js.splitHead s sep) ≤ String.length pre)%nat.
Proof.
  revert pre. induction s as [|c s IH]; intros pre Hs.
  - assert (Hst : Js.startsWith "" sep = true).
    { apply startsWith_spec. destruct pre; [|discriminate]. by exists post. }
    simpl. rewrite Hst. split; [|simpl; lia].
    apply startsWith_spec in Hst as [rest Hrest]. by exists rest.
  - simpl. destruct (Js.startsWith (String c s) sep) eqn:Hst.
    + split; [|simpl; lia]. apply startsWith_spec in Hst as [rest Hrest].
      by exists rest.
    + destruct pre as [|c' pre].
      * assert (Js.startsWith (String c s) sep = true)
          by (apply startsWith_spec; by exists post).
        congruence.
      * simpl in Hs. injection Hs as <- Hs.
        destruct (IH pre Hs) as [[rest Hrest] Hlen]. split.
        -- exists rest. exact (f_equal (String c) Hrest).
        -- simpl. lia.
Qed.

(** X7. [startTime] is the text of [Time] before its first " - ": the
    whole of [Time] when it has no " - ", and otherwise a prefix followed
    by " - " that is no longer than the text before any other
    occurrence. *)
Theorem startTime_first_separator (item : ClassSchedule) :
  (¬ substring_of " - " (Time item) → startTime item = Time item)
  ∧ ∀ pre post, Time item = pre +:+ " - " +:+ post →
      (∃ rest, Time item = startTime item +:+ " - " +:+ rest)
      ∧ (String.length (startTime item) ≤ String.length pre)%nat.
Proof.
  split.
  - intros Hno. apply splitHead_whole.
    destruct (Js.includes (Time item) " - ") eqn:E; [|done].
    by apply includes_spec in E.
  - intros pre post. apply splitHead_first.
Qed.

Lemma startTime_first_separator_witness :
  let item := mkClass "MON" "09:00 - 10:00" "Tutorial" "4CS015" "Mathematics"
                "B. Shah" "L4CG1" "TR-02" in
  (∃ rest, Time item = startTime item +:+ " - " +:+ rest)
  ∧ (String.length (startTime item) ≤ String.length "09:00")%nat.
Proof.
  intros item.
  exact (proj2 (startTime_first_separator item) "09:00" "10:00" eq_refl).
Defined.

(** X8. For a [Time] written as a start without blanks, then " - ", then
    anything, [startTime] is that start. *)
Theorem startTime_of_range (item : ClassSchedule) (start rest : string) :
  ¬ substring_of " " start →
  Time item = start +:+ " - " +:+ rest →
  startTime item = start.
Proof.
  unfold startTime. intros Hblank ->. induction start as [|c start IH].
  - reflexivity.
  - assert (Hc : String c "" ≠ " ").
    { intros Heq. injection Heq as ->. apply Hblank. by exists "", start. }
    simpl. case_decide as Heq; [subst c; by destruct Hc|].
    f_equal. apply IH. intros (pre & post & ->).
    apply Hblank. by exists (String c pre), post.
Qed.

Lemma startTime_of_range_witness :
  let item := mkClass "MON" "09:00 - 10:00" "Tutorial" "4CS015" "Mathematics"
                "B. Shah" "L4CG1" "TR-02" in
  ¬ substring_of " " "09:00" ∧ startTime item = "09:00".
Proof.
  intros item.
  assert (H : ¬ substring_of " " "09:00").
  { intros E. apply includes_spec in E. discriminate. }
  exact (conj H (startTime_of_range item "09:00" "10:00" H eq_refl)).
Defined.

(** ** Invariants of the controller *)

Lemma acceptedGroup_valid stored g : acceptedGroup stored = Some g → g ∈ GROUPS.
Proof.
  unfold acceptedGroup. destruct stored as [g'|]; [|done].
  destruct (bool_decide (g' ∈ GROUPS)) eqn:E; [|done].
  intros [= <-]. by apply bool_decide_eq_true in E.
Qed.

Lemma acceptedGroup_of_valid g : g ∈ GROUPS → acceptedGroup (Some g) = Some g.
Proof. intros Hg. unfold acceptedGroup. by rewrite (bool_decide_eq_true_2 _ Hg). Qed.

Lemma offered_group s group r :
  offered s (PressGroup group r) = true → group ∈ GROUPS.
Proof.
  simpl. intros [_ H]%andb_true_iff. unfold Js.arrayIncludes in H.
  by apply bool_decide_eq_true in H.
Qed.

Lemma handle_selectedGroup_valid ev w :
  offered (ui w) ev = true →
  (∀ g, selectedGroup (ui w) = Some g → g ∈ GROUPS) →
  ∀ g, selectedGroup (ui (exec (handle ev) w)) = Some g → g ∈ GROUPS.
Proof.
  intros Hoff Hw g.
  destruct ev as [rGroup rTheme|group r|r|pressed r| |day]; simpl handle.
  - destruct rGroup, rTheme.
    2-4: rewrite loadSavedData_failed by auto; apply Hw.
    rewrite loadSavedData_read. simpl.
    destruct (acceptedGroup _) as [g'|] eqn:E; [|apply Hw].
    intros [= <-]. by eapply acceptedGroup_valid.
  - destruct r; [|apply Hw]. rewrite saveGroup_written. simpl.
    intros [= <-]. by eapply offered_group.
  - rewrite toggleTheme_run. apply Hw.
  - rewrite changeGroup_run. destruct pressed, r; try apply Hw. done.
  - apply Hw.
  - apply Hw.
Qed.

(** X9. In every reachable state the selected group is absent or one of
    the four of [GROUPS]. *)
Theorem selectedGroup_always_valid (w : World) :
  reachable w →
  selectedGroup (ui w) = None
  ∨ ∃ g, selectedGroup (ui w) = Some g ∧ g ∈ GROUPS.
Proof.
  intros Hreach.
  assert (Hvalid : ∀ g, selectedGroup (ui w) = Some g → g ∈ GROUPS).
  { induction Hreach as [dayIndex items|w ev w' _ IH [Hoff]]; [done|].
    by apply handle_selectedGroup_valid. }
  destruct (selectedGroup (ui w)) as [g|]; [right|by left].
  exists g. split; [done|]. by apply Hvalid.
Qed.

Lemma selectedGroup_always_valid_witness :
  let w := exec (handle (PressDay "FRI"))
             (exec (handle (PressGroup "L4CG3" Fulfilled))
                (exec (handle (Mounted Fulfilled Fulfilled)) (mount 3 ∅))) in
  reachable w
  ∧ (selectedGroup (ui w) = None ∨ ∃ g, selectedGroup (ui w) = Some g ∧ g ∈ GROUPS).
Proof.
  intros w. exact (conj sample_reachable (selectedGroup_always_valid w sample_reachable)).
Defined.

(** X10. A load with both reads successful leaves the in-memory group equal
    to what the store would restore, and every later event keeps it so,
    whether its store call succeeds or fails. *)
Theorem group_never_diverges :
  (∀ dayIndex items,
     groupInSync (exec (handle (Mounted Fulfilled Fulfilled)) (mount dayIndex items)))
  ∧ ∀ w ev w', step w ev w' → groupInSync w → groupInSync w'.
Proof.
  split.
  - intros dayIndex items. unfold groupInSync. simpl handle.
    rewrite loadSavedData_read. simpl. by destruct (acceptedGroup _).
  - intros w ev w' [Hoff]. unfold groupInSync. intros Hsync.
    destruct ev as [rGroup rTheme|group r|r|pressed r| |day]; simpl handle.
    + destruct rGroup, rTheme.
      2-4: by rewrite loadSavedData_failed by auto.
      rewrite loadSavedData_read. simpl. rewrite Hsync.
      by destruct (acceptedGroup _).
    + destruct r; [|by rewrite saveGroup_failed].
      rewrite saveGroup_written. simpl. rewrite lookup_insert_eq.
      symmetry. by eapply acceptedGroup_of_valid, offered_group.
    + rewrite toggleTheme_run. simpl. destruct r; [|done].
      by rewrite lookup_insert_ne.
    + rewrite changeGroup_run. destruct pressed, r; try done.
      simpl. by rewrite lookup_delete_eq.
    + done.
    + done.
Qed.

Lemma group_never_diverges_witness :
  step sampleWorld (PressChange Yes Fulfilled)
    (exec (handle (PressChange Yes Fulfilled)) sampleWorld)
  ∧ groupInSync sampleWorld
  ∧ groupInSync (exec (handle (PressChange Yes Fulfilled)) sampleWorld).
Proof.
  assert (Hstep : step sampleWorld (PressChange Yes Fulfilled)
                    (exec (handle (PressChange Yes Fulfilled)) sampleWorld))
    by (constructor; by vm_compute).
  assert (Hsync : groupInSync sampleWorld) by (by vm_compute).
  exact (conj Hstep (conj Hsync (proj2 group_never_diverges _ _ _ Hstep Hsync))).
Defined.

(** X11. A theme toggle whose write succeeds survives a restart: loading
    from the store gives the theme the toggle left in memory. *)
Theorem toggleTheme_then_restart_restores (w : World) (dayIndex : nat) :
  let toggled := exec (toggleTheme Fulfilled) w in
  let restored := exec (loadSavedData Fulfilled Fulfilled) (restart dayIndex toggled) in
  isDarkMode (ui restored) = isDarkMode (ui toggled)
  ∧ isDarkMode (ui toggled) = negb (isDarkMode (ui w))
  ∧ themeInSync toggled.
Proof.
  intros toggled restored. subst toggled restored. unfold themeInSync.
  rewrite loadSavedData_read, toggleTheme_run. simpl.
  rewrite lookup_insert_eq. by destruct (isDarkMode (ui w)).
Qed.

(** X12. A theme toggle whose write fails still flips the theme in
    memory and leaves the store alone: from a state in step with the store
    the two now differ, and a restart brings back the theme from before
    the toggle. *)
Theorem toggleTheme_failed_write_diverges (w : World) (dayIndex : nat) :
  themeInSync w →
  let toggled := exec (toggleTheme Rejected) w in
  let restored := exec (loadSavedData Fulfilled Fulfilled) (restart dayIndex toggled) in
  isDarkMode (ui toggled) = negb (isDarkMode (ui w))
  ∧ storeItems toggled = storeItems w
  ∧ ¬ themeInSync toggled
  ∧ isDarkMode (ui restored) = isDarkMode (ui w)
  ∧ consoleLines toggled = consoleLines w ++ ["Error saving theme:"]
  ∧ alertsRaised toggled = alertsRaised w.
Proof.
  intros Hsync toggled restored. subst toggled restored.
  unfold themeInSync in *.
  rewrite loadSavedData_read, toggleTheme_run. simpl. rewrite <- Hsync.
  repeat split; by destruct (isDarkMode (ui w)).
Qed.

Lemma toggleTheme_failed_write_diverges_witness :
  themeInSync sampleWorld ∧
  let toggled := exec (toggleTheme Rejected) sampleWorld in
  let restored := exec (loadSavedData Fulfilled Fulfilled) (restart 0 toggled) in
  isDarkMode (ui toggled) = negb (isDarkMode (ui sampleWorld))
  ∧ storeItems toggled = storeItems sampleWorld
  ∧ ¬ themeInSync toggled
  ∧ isDarkMode (ui restored) = isDarkMode (ui sampleWorld)
  ∧ consoleLines toggled = consoleLines sampleWorld ++ ["Error saving theme:"]
  ∧ alertsRaised toggled = alertsRaised sampleWorld.
Proof.
  assert (Hsync : themeInSync sampleWorld) by (by vm_compute).
  exact (conj Hsync (toggleTheme_failed_write_diverges sampleWorld 0 Hsync)).
Defined.

(** X13. Cancelling the change prompt touches neither the state nor the
    store; confirming it with a successful deletion clears the group for
    good: a restart finds no group to restore. *)
Theorem changeGroup_cancel_and_confirm (w : World) (r : Settled) (dayIndex : nat) :
  (let cancelled := exec (changeGroup Cancel r) w in
   ui cancelled = ui w ∧ storeItems cancelled = storeItems w
   ∧ consoleLines cancelled = consoleLines w)
  ∧ (let confirmed := exec (changeGroup Yes Fulfilled) w in
     let restored :=
       exec (loadSavedData Fulfilled Fulfilled) (restart dayIndex confirmed) in
     selectedGroup (ui confirmed) = None
     ∧ selectedGroup (ui restored) = None
     ∧ storeItems confirmed !! THEME_STORAGE_KEY = storeItems w !! THEME_STORAGE_KEY).
Proof.
  cbv zeta. rewrite loadSavedData_read, !changeGroup_run. simpl.
  rewrite lookup_delete_eq. simpl. rewrite lookup_delete_ne by done.
  by destruct r.
Qed.

Lemma offered_loaded s ev :
  offered s ev = true →
  match ev with Mounted _ _ => True | _ => isLoading s = false end.
Proof. destruct ev; simpl; [done|destruct (isLoading s); done..]. Qed.

(** X14. Loading happens once: any event ends with [isLoading] false, and
    while it is true only the mount effect can run. *)
Theorem loading_is_one_shot :
  (∀ w ev w', step w ev w' →
     isLoading (ui w') = false
     ∧ ∀ rGroup rTheme, offered (ui w') (Mounted rGroup rTheme) = false)
  ∧ ∀ s ev, isLoading s = true → offered s ev = true →
      ∃ rGroup rTheme, ev = Mounted rGroup rTheme.
Proof.
  split.
  - intros w ev w' [Hoff].
    assert (isLoading (ui (exec (handle ev) w)) = false) as Hload;
      [|split; [exact Hload | intros; exact Hload]].
    destruct ev as [rGroup rTheme|group r|r|pressed r| |day]; simpl handle.
    + destruct rGroup, rTheme.
      2-4: by rewrite loadSavedData_failed by auto.
      by rewrite loadSavedData_read.
    + apply offered_loaded in Hoff. by destruct r.
    + apply offered_loaded in Hoff. by rewrite toggleTheme_run.
    + apply offered_loaded in Hoff. rewrite changeGroup_run. by destruct pressed, r.
    + by apply offered_loaded in Hoff.
    + by apply offered_loaded in Hoff.
  - intros s ev Hload Hoff. destruct ev; simpl in Hoff; rewrite Hload in Hoff;
      try done. by eexists _, _.
Qed.

Lemma loading_is_one_shot_witness :
  step (mount 2 ∅) (Mounted Rejected Fulfilled)
    (exec (handle (Mounted Rejected Fulfilled)) (mount 2 ∅))
  ∧ isLoading (ui (exec (handle (Mounted Rejected Fulfilled)) (mount 2 ∅))) = false.
Proof.
  assert (Hstep : step (mount 2 ∅) (Mounted Rejected Fulfilled)
                    (exec (handle (Mounted Rejected Fulfilled)) (mount 2 ∅)))
    by (constructor; by vm_compute).
  exact (conj Hstep (proj1 (proj1 loading_is_one_shot _ _ _ Hstep))).
Defined.

(** ** What is on screen *)

Lemma reachable_selectedDay w :
  reachable w →
  selectedDay (ui w) ∈ ["ALL"; "SUN"; "MON"; "TUE"; "WED"; "THU"; "FRI"].
Proof.
  induction 1 as [dayIndex items|w ev w' _ IH Hstep].
  - apply initialSelectedDay_in_picker.
  - by eapply step_selectedDay.
Qed.

(** X15. In every reachable state the day picker reads ALL, SUN, ..., FRI
    and draws exactly one button selected, the one of the selected day. *)
Theorem dayPicker_one_selected (w : World) :
  reachable w →
  dayLabel <$> renderDayPicker (selectedDay (ui w))
  = ["ALL"; "SUN"; "MON"; "TUE"; "WED"; "THU"; "FRI"]
  ∧ dayLabel <$> filter (λ b, daySelected b = true) (renderDayPicker (selectedDay (ui w)))
    = [selectedDay (ui w)].
Proof.
  intros Hin%reachable_selectedDay. split; [reflexivity|].
  revert Hin. generalize (selectedDay (ui w)). intros sd Hin.
  repeat (apply elem_of_cons in Hin as [->|Hin]; [by vm_compute|]).
  by apply elem_of_nil in Hin.
Qed.

Lemma dayPicker_one_selected_witness :
  let w := exec (handle (PressDay "FRI"))
             (exec (handle (PressGroup "L4CG3" Fulfilled))
                (exec (handle (Mounted Fulfilled Fulfilled)) (mount 3 ∅))) in
  reachable w
  ∧ dayLabel <$> renderDayPicker (selectedDay (ui w))
    = ["ALL"; "SUN"; "MON"; "TUE"; "WED"; "THU"; "FRI"]
  ∧ dayLabel <$> filter (λ b, daySelected b = true) (renderDayPicker (selectedDay (ui w)))
    = [selectedDay (ui w)].
Proof.
  intros w. exact (conj sample_reachable (dayPicker_one_selected w sample_reachable)).
Defined.

Lemma bucket_items localeCompare items grouped d bucket item :
  plainDays items →
  groupedByDay localeCompare items = Some grouped →
  grouped !! d = Some bucket →
  item ∈ bucket → item ∈ items ∧ Day item = d.
Proof.
  intros Hplain Hg Hd Hin.
  destruct (groupedByDay_bucket localeCompare _ _ _ _ Hplain Hg Hd) as [-> _].
  rewrite sort_perm in Hin. apply list_elem_of_filter in Hin. tauto.
Qed.

Lemma renderDaySection_title grouped (days : list string) sec :
  sec ∈ shownSections (renderDaySection grouped <$> days) →
  ∃ day, day ∈ days ∧ dayTitle sec = DAY_NAMES !! day.
Proof.
  unfold shownSections. rewrite list_elem_of_omap.
  intros (o & Ho & Hsec). simpl in Hsec. subst o.
  apply list_elem_of_fmap in Ho as (day & Hday & Hin).
  exists day. split; [done|]. unfold renderDaySection in Hday.
  destruct (grouped !! day) as [bucket|]; [|done].
  destruct (length bucket =? 0)%nat; [done|]. by injection Hday as ->.
Qed.

Lemma DAY_NAMES_of_DAYS day : day ∈ DAYS → is_Some (DAY_NAMES !! day).
Proof.
  intros Hin. unfold DAYS in Hin.
  repeat (apply elem_of_cons in Hin as [->|Hin];
          [apply (bool_decide_unpack _); by vm_compute|]).
  by apply elem_of_nil in Hin.
Qed.

Lemma picker_day_cases sd :
  sd ∈ ["ALL"; "SUN"; "MON"; "TUE"; "WED"; "THU"; "FRI"] →
  sd = "ALL" ∨ (sd ≠ "ALL" ∧ sd ∈ DAYS).
Proof.
  intros [->|Hin]%elem_of_cons; [by left|]. right. split; [|done].
  intros ->. revert Hin. apply (bool_decide_unpack _). by vm_compute.
Qed.

(** X16. On a dataset with plain days every reachable state renders. The
    loading view shows only while loading, the group selection only with
    no group and with the four buttons of [GROUPS]; on the schedule every
    session shown is one of the dataset, is tagged with the selected
    group, is held on one of SUN to FRI and, unless ALL is selected, on
    the selected day, and every section has a title. *)
Theorem App_shows_selection_only (localeCompare : string → string → Z)
    (D : list ClassSchedule) (w : World) :
  plainDays D → reachable w →
  ∃ screen,
    App localeCompare D (ui w) = Some screen ∧
    match screen with
    | LoadingView => isLoading (ui w) = true
    | GroupSelectionView groupButtons =>
        isLoading (ui w) = false ∧ selectedGroup (ui w) = None
        ∧ groupButtons = ["L4CG1"; "L4CG2"; "L4CG3"; "L4CG4"]
    | ScheduleView groupText dayPicker scrollView =>
        isLoading (ui w) = false ∧
        ∃ g, groupText = Some g ∧ selectedGroup (ui w) = Some g ∧ g ∈ GROUPS ∧
          ∀ sec, sec ∈ shownSections scrollView →
            is_Some (dayTitle sec) ∧
            ∀ item, item ∈ sectionClasses sec →
              item ∈ D ∧ substring_of g (Group item) ∧ Day item ∈ DAYS
              ∧ (selectedDay (ui w) = "ALL" ∨ Day item = selectedDay (ui w))
    end.
Proof.
  intros Hplain Hreach.
  pose proof (reachable_selectedDay w Hreach) as Hday.
  assert (Hvalid : ∀ g, selectedGroup (ui w) = Some g → g ∈ GROUPS).
  { clear Hday. induction Hreach as [dayIndex items|w ev w' _ IH [Hoff]]; [done|].
    by apply handle_selectedGroup_valid. }
  pose proof (plainDays_filteredSchedule (selectedGroup (ui w)) (selectedDay (ui w))
                D Hplain) as HF.
  destruct (groupedByDay_lookup localeCompare _ HF) as (grouped & Hg & _).
  unfold App. rewrite Hg.
  destruct (isLoading (ui w)); [by eexists|].
  destruct (selectedGroup (ui w)) as [g|] eqn:Hsel; [|by eexists].
  rewrite (GROUPS_truthy g (Hvalid g eq_refl)).
  eexists. split; [reflexivity|]. split; [done|].
  exists g. split; [done|]. split; [done|]. split; [by apply Hvalid|].
  assert (Hitems : ∀ d bucket item, grouped !! d = Some bucket → item ∈ bucket →
            item ∈ D ∧ substring_of g (Group item) ∧ Day item = d
            ∧ (selectedDay (ui w) = "ALL" ∨ Day item = selectedDay (ui w))).
  { intros d bucket item Hd Hin.
    destruct (bucket_items _ _ _ _ _ _ HF Hg Hd Hin) as [HinF Hd'].
    apply filteredSchedule_elem_of in HinF
      as (g' & [= <-] & _ & HinD & Hsub & Hsd). done. }
  apply picker_day_cases in Hday as [Hall|[Hnot Hday]].
  - rewrite Hall in *. intros sec Hsec. split.
    + apply renderDaySection_title in Hsec as (day & Hin & ->).
      by apply DAY_NAMES_of_DAYS.
    + intros item Hitem.
      apply renderDaySection_shown in Hsec as (day & Hin & Hbucket & _).
      destruct (Hitems _ _ _ Hbucket Hitem) as (? & ? & Hd & _).
      rewrite Hd. auto.
  - rewrite renderSchedule_day; [|done|].
    2: { intros bucket Hb.
         by destruct (groupedByDay_bucket localeCompare _ _ _ _ HF Hg Hb). }
    intros sec Hsec. unfold shownSections in Hsec. simpl in Hsec.
    apply list_elem_of_singleton in Hsec as ->. simpl.
    split; [by apply DAY_NAMES_of_DAYS|].
    unfold sectionClasses. simpl.
    destruct (grouped !! selectedDay (ui w)) as [bucket|] eqn:Hb.
    + intros item Hitem. destruct (Hitems _ _ _ Hb Hitem) as (? & ? & Hd & _).
      rewrite Hd. auto.
    + intros item Hitem. by apply elem_of_nil in Hitem.
Qed.

Lemma App_shows_selection_only_witness :
  let w := exec (handle (PressDay "FRI"))
             (exec (handle (PressGroup "L4CG3" Fulfilled))
                (exec (handle (Mounted Fulfilled Fulfilled)) (mount 3 ∅))) in
  plainDays sampleSchedule ∧ reachable w ∧
  ∃ screen,
    App codeUnitCompare sampleSchedule (ui w) = Some screen ∧
    match screen with
    | LoadingView => isLoading (ui w) = true
    | GroupSelectionView groupButtons =>
        isLoading (ui w) = false ∧ selectedGroup (ui w) = None
        ∧ groupButtons = ["L4CG1"; "L4CG2"; "L4CG3"; "L4CG4"]
    | ScheduleView groupText dayPicker scrollView =>
        isLoading (ui w) = false ∧
        ∃ g, groupText = Some g ∧ selectedGroup (ui w) = Some g ∧ g ∈ GROUPS ∧
          ∀ sec, sec ∈ shownSections scrollView →
            is_Some (dayTitle sec) ∧
            ∀ item, item ∈ sectionClasses sec →
              item ∈ sampleSchedule ∧ substring_of g (Group item) ∧ Day item ∈ DAYS
              ∧ (selectedDay (ui w) = "ALL" ∨ Day item = selectedDay (ui w))
    end.
Proof.
  intros w.
  exact (conj plainDays_sampleSchedule (conj sample_reachable
           (App_shows_selection_only codeUnitCompare sampleSchedule w
              plainDays_sampleSchedule sample_reachable))).
Defined.

(** X17. Without a group (none, or the empty string) the dataset is not
    looked at: whatever it holds, the render does not throw and shows the
    loading view or the group selection. *)
Theorem App_without_group (localeCompare : string → string → Z)
    (D : list ClassSchedule) (s : AppState) :
  Js.truthy (selectedGroup s) = false →
  filteredSchedule (selectedGroup s) (selectedDay s) D = []
  ∧ App localeCompare D s
    = Some (if isLoading s then LoadingView
            else GroupSelectionView ["L4CG1"; "L4CG2"; "L4CG3"; "L4CG4"]).
Proof.
  intros Hno.
  assert (HF : filteredSchedule (selectedGroup s) (selectedDay s) D = []).
  { unfold filteredSchedule. destruct (selectedGroup s) as [g|]; [|done].
    by rewrite Hno. }
  split; [done|]. unfold App. rewrite HF, Hno. simpl.
  by destruct (isLoading s).
Qed.

Lemma App_without_group_witness :
  let D := [mkClass "toString" "09:00 - 10:00" "Lecture" "4CS001" "Programming"
              "A. Rai" "L4CG1" "LT-01"] in
  let s := mkState (Some "") "MON" false true in
  Js.truthy (selectedGroup s) = false
  ∧ filteredSchedule (selectedGroup s) (selectedDay s) D = []
  ∧ App codeUnitCompare D s
    = Some (if isLoading s then LoadingView
            else GroupSelectionView ["L4CG1"; "L4CG2"; "L4CG3"; "L4CG4"]).
Proof.
  intros D s.
  exact (conj eq_refl (App_without_group codeUnitCompare D s eq_refl)).
Defined.

Lemma dayPicker_presses sd ev :
  (∃ b, b ∈ renderDayPicker sd ∧ dayPress b = ev)
  ↔ ev = PressAll ∨ ∃ day, day ∈ DAYS ∧ ev = PressDay day.
Proof.
  unfold renderDayPicker. split.
  - intros (b & [->|Hb]%elem_of_cons & Hev); [by left|]. right.
    apply list_elem_of_fmap in Hb as (day & -> & Hday). by exists day.
  - intros [->|(day & Hday & ->)].
    + eexists. split; [apply list_elem_of_here|done].
    + exists (mkDayButton day (bool_decide (sd = day)) (PressDay day)).
      split; [|reflexivity].
      apply list_elem_of_further, list_elem_of_fmap. by exists day.
Qed.

(** X18. The presses the transition system takes in a state are the
    presses of the buttons the render of that state draws: none on the
    loading view, the four group buttons on the group selection, the theme
    and change buttons and the seven day buttons on the schedule. *)
Theorem offered_is_on_screen (localeCompare : string → string → Z)
    (D : list ClassSchedule) (s : AppState) (screen : Screen) (ev : Event) :
  App localeCompare D s = Some screen →
  match ev with
  | Mounted _ _ => offered s ev = isLoading s
  | _ => offered s ev = true ↔ pressable screen ev
  end.
Proof.
  unfold App. destruct (groupedByDay _ _) as [grouped|]; [|done].
  intros Hscreen.
  destruct ev as [rGroup rTheme|group r|r|pressed r| |day]; simpl offered;
    [done|..];
    destruct (isLoading s); destruct (Js.truthy (selectedGroup s));
    simplify_eq; simpl; try (split; [done|tauto]); try (split; done).
  - unfold Js.arrayIncludes, renderGroupSelection.
    rewrite bool_decide_eq_true, list_fmap_id. done.
  - split; [|done]. intros _. apply dayPicker_presses. by left.
  - rewrite dayPicker_presses. unfold Js.arrayIncludes. rewrite bool_decide_eq_true.
    split.
    + intros Hday. right. by exists day.
    + intros [?|(day' & Hday & [= ->])]; done.
Qed.

Lemma offered_is_on_screen_witness :
  App codeUnitCompare sampleSchedule (ui sampleWorld)
  = Some (ScheduleView (Some "L4CG1") (renderDayPicker "MON")
            (renderSchedule "MON"
               {[ "MON" := Js.sort (compareFn codeUnitCompare)
                             (filteredSchedule (Some "L4CG1") "MON" sampleSchedule) ]}))
  ∧ (offered (ui sampleWorld) (PressDay "SAT") = true
     ↔ pressable
         (ScheduleView (Some "L4CG1") (renderDayPicker "MON")
            (renderSchedule "MON"
               {[ "MON" := Js.sort (compareFn codeUnitCompare)
                             (filteredSchedule (Some "L4CG1") "MON" sampleSchedule) ]}))
         (PressDay "SAT")).
Proof.
  assert (H : App codeUnitCompare sampleSchedule (ui sampleWorld)
              = Some (ScheduleView (Some "L4CG1") (renderDayPicker "MON")
                        (renderSchedule "MON"
                           {[ "MON" := Js.sort (compareFn codeUnitCompare)
                                         (filteredSchedule (Some "L4CG1") "MON"
                                            sampleSchedule) ]})))
    by (by vm_compute).
  exact (conj H (offered_is_on_screen codeUnitCompare sampleSchedule (ui sampleWorld)
                   _ (PressDay "SAT") H)).
Defined.

(** ** The two preferences *)

(** X19. The two preferences do not touch each other: saving or clearing
    the group leaves the stored and the in-memory theme alone, and a theme
    toggle leaves the stored and the in-memory group alone, whether the
    store call succeeds or fails. *)
Theorem preferences_are_independent (w : World) (r : Settled) :
  (∀ g, let w' := exec (saveGroup r g) w in
        storeItems w' !! THEME_STORAGE_KEY = storeItems w !! THEME_STORAGE_KEY
        ∧ isDarkMode (ui w') = isDarkMode (ui w))
  ∧ (∀ pressed, let w' := exec (changeGroup pressed r) w in
        storeItems w' !! THEME_STORAGE_KEY = storeItems w !! THEME_STORAGE_KEY
        ∧ isDarkMode (ui w') = isDarkMode (ui w))
  ∧ (let w' := exec (toggleTheme r) w in
     storeItems w' !! GROUP_STORAGE_KEY = storeItems w !! GROUP_STORAGE_KEY
     ∧ selectedGroup (ui w') = selectedGroup (ui w)).
Proof.
  split; [|split]; cbv zeta.
  - intros g. destruct r; [|by rewrite saveGroup_failed].
    rewrite saveGroup_written. simpl. by rewrite lookup_insert_ne.
  - intros pressed. rewrite changeGroup_run.
    destruct pressed, r; simpl; try done. by rewrite lookup_delete_ne.
  - rewrite toggleTheme_run. simpl. destruct r; [|done].
    by rewrite lookup_insert_ne.
Qed.

(** X20. A restart (both reads successful) brings back exactly what the
    store holds: the group it restores is the in-memory one precisely
    when the two were in step, and likewise the theme. *)
Theorem restart_restores_what_is_stored (w : World) (dayIndex : nat) :
  let restored := exec (loadSavedData Fulfilled Fulfilled) (restart dayIndex w) in
  (selectedGroup (ui restored) = selectedGroup (ui w) ↔ groupInSync w)
  ∧ (isDarkMode (ui restored) = isDarkMode (ui w) ↔ themeInSync w)
  ∧ storeItems restored = storeItems w
  ∧ selectedDay (ui restored) = initialSelectedDay dayIndex.
Proof.
  cbv zeta. unfold groupInSync, themeInSync. rewrite loadSavedData_read. simpl.
  repeat split; try done.
  - intros <-. by destruct (acceptedGroup _).
  - intros ->. by destruct (acceptedGroup _).
  - intros <-. by destruct (bool_decide _).
  - intros ->. by destruct (bool_decide _).
Qed.
